(** * Munster Irish coach: the relays and the chat client

    A shallow embedding of the request handlers of the repository (the
    transcription relay in its three variants, the speech relay in its two
    variants, the chat relay) and of the conversation loop of the browser
    client, with the properties the specification states about them.

    Everything outside the repository is a parameter of the model, gathered
    in [World]: the process environment, the providers behind [fetch] and
    the speech SDK, and the Node built-ins whose behaviour the handlers
    only pass along. *)

From Stdlib Require Import ZArith Ascii String List Bool Lia.
From stdpp Require Import base strings gmap list.

Local Open Scope string_scope.
Local Open Scope Z_scope.
Local Open Scope list_scope.

(** ** JavaScript values *)

Module JS.

#[local] Unset Elimination Schemes.

(** A JSON value.  A number is the decimal [m * 10^e]; the code never
    computes with numbers, it only tests them for truthiness.  An object is
    the list of its own properties in insertion order.

    The program holds a number as an IEEE double.  Every finite double is
    such a decimal, but not every decimal is a double: the type is larger
    than the set of values [JSON.parse] returns, and what is proved for
    every [json] holds of these values in particular.  Reading a text into
    a value (the body parser for [req.body], [response.json()] for a
    provider's answer) and writing a value out ([JSON.stringify],
    [res.json]) are not part of this type: a handler starts from the value
    it is given and ends with the value it hands over, and nothing here
    says that a text and the text written from its parse are the same
    (digits beyond a double, white space and repeated keys are lost by the
    parse). *)
Inductive json : Type :=
| JNull
| JBool (b : bool)
| JNum (m e : Z)
| JStr (s : string)
| JArr (xs : list json)
| JObj (fields : list (string * json)).
#[local] Set Elimination Schemes.

(** A JavaScript value that came out of JSON: [None] is [undefined]. *)
Definition value : Type := option json.

(** [!!v] *)
Definition truthy (v : value) : bool :=
  match v with
  | None => false
  | Some JNull => false
  | Some (JBool b) => b
  | Some (JNum m _) => negb (m =? 0)
  | Some (JStr s) => negb (String.eqb s "")
  | Some (JArr _) => true
  | Some (JObj _) => true
  end.

(** [!!s] for a string that may be undefined (an environment variable, an
    error message). *)
Definition truthy_str (s : option string) : bool :=
  match s with
  | None => false
  | Some s => negb (String.eqb s "")
  end.

(** [a || b] *)
Definition or_else (a : value) (b : json) : json :=
  match a with
  | Some x => if truthy a then x else b
  | None => b
  end.

Definition or_else_str (a : option string) (b : string) : string :=
  match a with
  | Some x => if truthy_str a then x else b
  | None => b
  end.

(** [`${s}`] *)
Definition interpolate (s : option string) : string :=
  match s with
  | Some s => s
  | None => "undefined"
  end.

(** Own property [k] of an object. *)
Fixpoint lookup_field (k : string) (fs : list (string * json)) : value :=
  match fs with
  | [] => None
  | (k', v) :: fs => if String.eqb k k' then Some v else lookup_field k fs
  end.

(** [v.k] for a value [v] that is neither null nor undefined, and a name
    [k] that no prototype defines (every name the code reads is such a
    name): primitives and arrays answer [undefined]. *)
Definition prop (k : string) (v : json) : value :=
  match v with
  | JObj fs => lookup_field k fs
  | _ => None
  end.

(** [v[0]] for a value [v] that is neither null nor undefined. *)
Definition index0 (v : json) : value :=
  match v with
  | JArr xs => xs !! 0%nat
  | JObj fs => lookup_field "0" fs
  | JStr (String c _) => Some (JStr (String c ""))
  | _ => None
  end.

(** [v?.[...]] and [v?.k]: short-circuit on null and undefined. *)
Definition opt_chain (f : json -> value) (v : value) : value :=
  match v with
  | None => None
  | Some JNull => None
  | Some x => f x
  end.

(** An object literal handed to [JSON.stringify] or [res.json]: a property
    whose value is undefined is left out. *)
Fixpoint literal (fs : list (string * value)) : list (string * json) :=
  match fs with
  | [] => []
  | (k, Some v) :: fs => (k, v) :: literal fs
  | (_, None) :: fs => literal fs
  end.

(** What a [throw] carries, as far as the code looks at it: [error.message]. *)
Record exn : Type := Exn { message : option string }.

Definition Error (msg : string) : exn := Exn (Some msg).

(** The outcome of an expression or of an awaited promise. *)
Inductive result (A : Type) : Type :=
| Ok (a : A)
| Thrown (e : exn).
Arguments Ok {A} a.
Arguments Thrown {A} e.

(** A byte buffer. *)
Definition Buffer : Type := list Byte.byte.

(** The double quote, for the one message that contains it. *)
Definition dquote : string := String (ascii_of_nat 34) "".

End JS.
Export JS.

(** ** The world outside the repository *)

Module Net.

(** One part of a [form-data] form, as [form.append] receives it. *)
Inductive part_data : Type :=
| PBuffer (b : Buffer)
| PJson (v : json).          (* the text [JSON.stringify(v)] *)

Record part : Type := Part {
  p_name : string;
  p_data : part_data;
  p_filename : option string;
  p_contentType : option string
}.

Definition FormData : Type := list part.

(** The body of an outbound request. *)
Inductive req_body : Type :=
| BodyNone
| BodyJson (v : json)            (* the text [JSON.stringify(v)] *)
| BodyForm (f : FormData)        (* the form itself, streamed by [fetch] *)
| BodyFormBuffer (f : FormData). (* the bytes read off the form's stream *)

(** [JSON.stringify(v)] as a request body; [JSON.stringify(undefined)] is
    [undefined], that is, no body. *)
Definition JSON_stringify (v : value) : req_body :=
  match v with
  | Some j => BodyJson j
  | None => BodyNone
  end.

(** The arguments of a call of [fetch]. *)
Record FetchReq : Type := {
  url : string;
  f_method : string;
  f_headers : list (string * option string);
  f_body : req_body
}.

(** The [Response] a resolved [fetch] gives, as the handlers look at it:
    [ok], [status] and what awaiting each body reader gives. *)
Record FetchResp : Type := {
  ok : bool;
  r_status : Z;
  r_text : result string;
  r_json : result json;
  r_arrayBuffer : result Buffer
}.

(** The speech SDK, as the SDK variant of the transcription relay drives
    it: one recognition over a push stream. *)
Inductive ProfanityOption : Type := Masked | Removed | Raw.

Record RecogReq : Type := {
  sdk_key : option string;
  sdk_region : option string;
  sdk_profanity : ProfanityOption;
  sdk_languages : list string;
  sdk_audio : Buffer
}.

Inductive ResultReason : Type :=
| RecognizedSpeech
| NoMatch
| Canceled
| OtherReason.

Record RecogResult : Type := {
  reason : ResultReason;
  text : option string;           (* [result.text] *)
  language : option string;       (* of [AutoDetectSourceLanguageResult] *)
  errorDetails : option string    (* of [CancellationDetails] *)
}.

Inductive RecogOutcome : Type :=
| SdkResult (r : RecogResult)     (* the success callback *)
| SdkError (error : string)       (* the error callback *)
| SdkThrows (e : exn).            (* a call of the SDK throws before the
                                     recognition starts (a missing method
                                     of the package, say) *)

(** A contact with a provider. *)
Inductive call : Type :=
| CFetch (rq : FetchReq)
| CRecognize (rq : RecogReq).

Record World : Type := {
  env : gmap string string;                          (* [process.env] *)
  net : FetchReq -> result FetchResp;                (* [fetch] *)
  speech_sdk : RecogReq -> RecogOutcome;
  base64_decode : string -> Buffer;                  (* [Buffer.from(s, 'base64')], [s] a string *)
  Buffer_from_other : value -> result Buffer;        (* [Buffer.from(v, 'base64')], [v] not a string *)
  form_stream_error : FormData -> option exn;        (* the form's ['error'] event, if it fires *)
  form_getHeaders : FormData -> list (string * option string)
}.

End Net.
Export Net.

(** ** Handler computations: reads of the world, provider calls, throws *)

Module Eff.

(** A computation reads the world, records the provider calls it makes, and
    returns or throws. *)
Definition M (A : Type) : Type := World -> list call * result A.

Definition ret {A} (a : A) : M A := fun _ => ([], Ok a).

Definition throw {A} (e : exn) : M A := fun _ => ([], Thrown e).

Definition bind {A B} (m : M A) (k : A -> M B) : M B :=
  fun w =>
    match m w with
    | (t1, Ok a) => let '(t2, r) := k a w in (t1 ++ t2, r)
    | (t1, Thrown e) => (t1, Thrown e)
    end.

(** [try { m } catch (error) { h error }] *)
Definition try_catch {A} (m : M A) (h : exn -> M A) : M A :=
  fun w =>
    match m w with
    | (t1, Ok a) => (t1, Ok a)
    | (t1, Thrown e) => let '(t2, r) := h e w in (t1 ++ t2, r)
    end.

(** [await p] for a promise whose outcome the world fixed. *)
Definition await {A} (r : result A) : M A := fun _ => ([], r).

(** [process.env.NAME] *)
Definition getenv (name : string) : M (option string) :=
  fun w => ([], Ok (env w !! name)).

(** [await fetch(url, init)] *)
Definition fetch (rq : FetchReq) : M FetchResp :=
  fun w => ([CFetch rq], net w rq).

(** [Buffer.from(v, 'base64')] *)
Definition Buffer_from (v : value) : M Buffer :=
  fun w =>
    match v with
    | Some (JStr s) => ([], Ok (base64_decode w s))
    | _ => ([], Buffer_from_other w v)
    end.

(** Reading the form's stream to its end into one buffer. *)
Definition read_form (f : FormData) : M req_body :=
  fun w =>
    match form_stream_error w f with
    | Some e => ([], Thrown e)
    | None => ([], Ok (BodyFormBuffer f))
    end.

Definition getHeaders (f : FormData) : M (list (string * option string)) :=
  fun w => ([], Ok (form_getHeaders w f)).

(** [v.k]: a [TypeError] when [v] is null or undefined. *)
Definition member (k : string) (v : value) : M value :=
  match v with
  | None =>
      throw (Error ("Cannot read properties of undefined (reading '" +:+ k +:+ "')"))
  | Some JNull =>
      throw (Error ("Cannot read properties of null (reading '" +:+ k +:+ "')"))
  | Some x => ret (prop k x)
  end.

(** [const { k } = v]: a [TypeError] when [v] is null or undefined. *)
Definition destructure (k what : string) (v : value) : M value :=
  match v with
  | None =>
      throw (Error ("Cannot destructure property '" +:+ k +:+ "' of '" +:+ what
                    +:+ "' as it is undefined."))
  | Some JNull =>
      throw (Error ("Cannot destructure property '" +:+ k +:+ "' of '" +:+ what
                    +:+ "' as it is null."))
  | Some x => ret (prop k x)
  end.

(** One recognition by the speech SDK, wrapped in a promise. *)
Definition recognizeOnce (rq : RecogReq) : M RecogResult :=
  fun w =>
    match speech_sdk w rq with
    | SdkResult r => ([CRecognize rq], Ok r)
    | SdkError error => ([CRecognize rq], Thrown (Error error))
    | SdkThrows e => ([], Thrown e)
    end.

Module Import Notations.
Notation "'let!' x ':=' m 'in' k" := (bind m (fun x => k))
  (at level 10, x name, m at level 100, k at level 200).
End Notations.

End Eff.
Export Eff.
Import Eff.Notations.

(** ** Requests and responses of a handler *)

Module Http.

(** What a handler reads of [req]. *)
Record Request : Type := {
  method : string;
  body : value           (* [req.body]: the parsed JSON body, if any *)
}.

(** What a handler leaves in [res]. *)
Inductive res_body : Type :=
| NotSent
| Json (v : json)        (* [res.json(v)] *)
| Sent (b : Buffer)      (* [res.send(buffer)] *)
| Ended.                 (* [res.end()] *)

Record Response : Type := {
  statusCode : Z;
  headers : list (string * string);
  payload : res_body
}.

(** A fresh [res]. *)
Definition res0 : Response :=
  {| statusCode := 200; headers := []; payload := NotSent |}.

Definition setHeader (k v : string) (res : Response) : Response :=
  {| statusCode := statusCode res;
     headers := headers res ++ [(k, v)];
     payload := payload res |}.

Definition status (n : Z) (res : Response) : Response :=
  {| statusCode := n; headers := headers res; payload := payload res |}.

Definition json_ (v : json) (res : Response) : Response :=
  {| statusCode := statusCode res; headers := headers res; payload := Json v |}.

Definition send (b : Buffer) (res : Response) : Response :=
  {| statusCode := statusCode res; headers := headers res; payload := Sent b |}.

Definition end_ (res : Response) : Response :=
  {| statusCode := statusCode res; headers := headers res; payload := Ended |}.

(** [{ error: msg }] *)
Definition error_body (msg : string) : json := JObj [("error", JStr msg)].

End Http.
Export Http.

(** ** api/transcribe.js: the transcription relay over the REST API *)

Module Transcribe.

Definition not_configured : string :=
  "Azure Speech not configured. Add AZURE_SPEECH_KEY and AZURE_SPEECH_REGION to Vercel environment variables.".

Definition no_audio : string :=
  "No audio data received. Expected JSON with " +:+ dquote +:+ "audio" +:+ dquote +:+ " field.".

(** The transcription settings of the [definition] part. *)
Definition definition : json :=
  JObj [("locales", JArr [JStr "en-IE"]);
        ("languageIdentification",
         JObj [("candidateLocales", JArr [JStr "en-IE"; JStr "ga-IE"])])].

Definition form_of (audioBuffer : Buffer) : FormData :=
  [ {| p_name := "audio"; p_data := PBuffer audioBuffer;
       p_filename := Some "recording.m4a"; p_contentType := Some "audio/mp4" |};
    {| p_name := "definition"; p_data := PJson definition;
       p_filename := None; p_contentType := None |} ].

Definition endpoint (speechRegion : option string) : string :=
  "https://" +:+ interpolate speechRegion +:+ ".api.cognitive.microsoft.com"
  +:+ "/speechtotext/transcriptions:transcribe?api-version=2024-11-15".

(** The body of the [try] block. *)
Definition handler_try (req : Request) (res : Response) : M Response :=
  let! speechKey := getenv "AZURE_SPEECH_KEY" in
  let! speechRegion := getenv "AZURE_SPEECH_REGION" in
  if negb (truthy_str speechKey) || negb (truthy_str speechRegion) then
    ret (json_ (error_body not_configured) (status 500 res))
  else
    let audio := prop "audio" (or_else (body req) (JObj [])) in
    if negb (truthy audio) then
      ret (json_ (error_body no_audio) (status 400 res))
    else
      let! audioBuffer := Buffer_from audio in
      let form := form_of audioBuffer in
      let! formBuffer := read_form form in
      let! formHeaders := getHeaders form in
      let! azureResponse :=
        fetch {| url := endpoint speechRegion;
                 f_method := "POST";
                 f_headers := ("Ocp-Apim-Subscription-Key", speechKey) :: formHeaders;
                 f_body := formBuffer |} in
      if negb (ok azureResponse) then
        let! errorText := await (r_text azureResponse) in
        ret (json_ (error_body ("Azure transcription failed: " +:+ errorText))
                   (status 502 res))
      else
        let! result := await (r_json azureResponse) in
        let! combinedPhrases := member "combinedPhrases" (Some result) in
        let fullText :=
          or_else (opt_chain (prop "text") (opt_chain index0 combinedPhrases)) (JStr "") in
        let! phrases := member "phrases" (Some result) in
        let detectedLang :=
          or_else (opt_chain (prop "locale") (opt_chain index0 phrases)) (JStr "") in
        ret (json_ (JObj [("text", fullText); ("language", detectedLang)])
                   (status 200 res)).

(** The [catch] block. *)
Definition handler_catch (res : Response) (error : exn) : M Response :=
  ret (json_ (error_body ("Transcription failed: " +:+ or_else_str (message error) "Unknown error"))
             (status 500 res)).

Definition handler (req : Request) (res : Response) : M Response :=
  let res := setHeader "Access-Control-Allow-Origin" "*" res in
  let res := setHeader "Access-Control-Allow-Methods" "POST, OPTIONS" res in
  let res := setHeader "Access-Control-Allow-Headers" "Content-Type" res in
  if String.eqb (method req) "OPTIONS" then
    ret (end_ (status 200 res))
  else if negb (String.eqb (method req) "POST") then
    ret (json_ (error_body "Method not allowed") (status 405 res))
  else
    try_catch (handler_try req res) (handler_catch res).

End Transcribe.

(** ** The earlier transcription relay over the REST API *)

Module TranscribeRestV1.

Definition definition : json :=
  JObj [("locales", JArr [JStr "ga-IE"; JStr "en-IE"])].

Definition form_of (audioBuffer : Buffer) : FormData :=
  [ {| p_name := "audio"; p_data := PBuffer audioBuffer;
       p_filename := Some "recording.m4a"; p_contentType := Some "audio/mp4" |};
    {| p_name := "definition"; p_data := PJson definition;
       p_filename := None; p_contentType := None |} ].

Definition handler_try (req : Request) (res : Response) : M Response :=
  let! speechKey := getenv "AZURE_SPEECH_KEY" in
  let! speechRegion := getenv "AZURE_SPEECH_REGION" in
  if negb (truthy_str speechKey) || negb (truthy_str speechRegion) then
    ret (json_ (error_body Transcribe.not_configured) (status 500 res))
  else
    let audio := prop "audio" (or_else (body req) (JObj [])) in
    if negb (truthy audio) then
      ret (json_ (error_body Transcribe.no_audio) (status 400 res))
    else
      let! audioBuffer := Buffer_from audio in
      let form := form_of audioBuffer in
      let! formHeaders := getHeaders form in
      let! azureResponse :=
        fetch {| url := Transcribe.endpoint speechRegion;
                 f_method := "POST";
                 f_headers := ("Ocp-Apim-Subscription-Key", speechKey) :: formHeaders;
                 f_body := BodyForm form |} in
      if negb (ok azureResponse) then
        let! errorText := await (r_text azureResponse) in
        ret (json_ (error_body ("Azure transcription failed: " +:+ errorText))
                   (status 502 res))
      else
        let! result := await (r_json azureResponse) in
        let! combinedPhrases := member "combinedPhrases" (Some result) in
        let fullText :=
          or_else (opt_chain (prop "text") (opt_chain index0 combinedPhrases)) (JStr "") in
        let! phrases := member "phrases" (Some result) in
        let detectedLang :=
          or_else (opt_chain (prop "locale") (opt_chain index0 phrases)) (JStr "") in
        ret (json_ (JObj [("text", fullText); ("language", detectedLang)])
                   (status 200 res)).

Definition handler (req : Request) (res : Response) : M Response :=
  let res := setHeader "Access-Control-Allow-Origin" "*" res in
  let res := setHeader "Access-Control-Allow-Methods" "POST, OPTIONS" res in
  let res := setHeader "Access-Control-Allow-Headers" "Content-Type" res in
  if String.eqb (method req) "OPTIONS" then
    ret (end_ (status 200 res))
  else if negb (String.eqb (method req) "POST") then
    ret (json_ (error_body "Method not allowed") (status 405 res))
  else
    try_catch (handler_try req res) (Transcribe.handler_catch res).

End TranscribeRestV1.

(** ** The transcription relay over the speech SDK *)

Module TranscribeSdk.

(** What the promise around [recognizeOnceAsync] resolves to or rejects
    with. *)
Definition transcript_of (result : RecogResult) : M json :=
  match reason result with
  | RecognizedSpeech =>
      let detectedLang := or_else_str (language result) "unknown" in
      ret (JObj (literal [("text", JStr <$> text result);
                          ("language", Some (JStr detectedLang))]))
  | NoMatch => ret (JObj [("text", JStr ""); ("language", JStr "")])
  | Canceled =>
      throw (Error (or_else_str (errorDetails result) "Recognition canceled"))
  | OtherReason => ret (JObj [("text", JStr ""); ("language", JStr "")])
  end.

Definition handler_try (req : Request) (res : Response) : M Response :=
  let! speechKey := getenv "AZURE_SPEECH_KEY" in
  let! speechRegion := getenv "AZURE_SPEECH_REGION" in
  if negb (truthy_str speechKey) || negb (truthy_str speechRegion) then
    ret (json_ (error_body Transcribe.not_configured) (status 500 res))
  else
    let audio := prop "audio" (or_else (body req) (JObj [])) in
    if negb (truthy audio) then
      ret (json_ (error_body Transcribe.no_audio) (status 400 res))
    else
      let! audioBuffer := Buffer_from audio in
      let! result :=
        recognizeOnce {| sdk_key := speechKey;
                         sdk_region := speechRegion;
                         sdk_profanity := Raw;
                         sdk_languages := ["ga-IE"; "en-IE"];
                         sdk_audio := audioBuffer |} in
      let! transcript := transcript_of result in
      ret (json_ transcript (status 200 res)).

Definition handler (req : Request) (res : Response) : M Response :=
  if negb (String.eqb (method req) "POST") then
    ret (json_ (error_body "Method not allowed") (status 405 res))
  else
    try_catch (handler_try req res) (Transcribe.handler_catch res).

End TranscribeSdk.

(** ** The speech relay (serverless function) *)

Module Speak.

Definition endpoint : string :=
  "https://api.elevenlabs.io/v1/text-to-speech/4AgX6Piqqh5KT4pSisZQ".

(** The request the provider receives for [text]. *)
Definition provider_body (text : value) : json :=
  JObj (literal
    [("text", text);
     ("model_id", Some (JStr "eleven_flash_v2_5"));
     ("voice_settings",
      Some (JObj [("stability", JNum 5 (-1)); ("similarity_boost", JNum 75 (-2))]))]).

Definition provider_request (text : value) (key : option string) : FetchReq :=
  {| url := endpoint;
     f_method := "POST";
     f_headers := [("Content-Type", Some "application/json"); ("xi-api-key", key)];
     f_body := JSON_stringify (Some (provider_body text)) |}.

Definition handler_try (req : Request) (res : Response) : M Response :=
  let! text := destructure "text" "req.body" (body req) in
  let! key := getenv "ELEVENLABS_API_KEY" in
  let! response := fetch (provider_request text key) in
  if negb (ok response) then
    let! err := await (r_json response) in
    ret (json_ (JObj [("error", err)]) (status 500 res))
  else
    let! audioBuffer := await (r_arrayBuffer response) in
    let res := setHeader "Content-Type" "audio/mpeg" res in
    ret (send audioBuffer (status 200 res)).

Definition handler_catch (res : Response) (error : exn) : M Response :=
  ret (json_ (error_body "Voice failed") (status 500 res)).

Definition handler (req : Request) (res : Response) : M Response :=
  if negb (String.eqb (method req) "POST") then
    ret (json_ (error_body "Method not allowed") (status 405 res))
  else
    try_catch (handler_try req res) (handler_catch res).

End Speak.

(** ** The local server: the chat relay and the speech relay as routes *)

Module Server.

Definition messages_endpoint : string := "https://api.anthropic.com/v1/messages".

Definition chat_request (body : value) (key : option string) : FetchReq :=
  {| url := messages_endpoint;
     f_method := "POST";
     f_headers := [("Content-Type", Some "application/json");
                   ("x-api-key", key);
                   ("anthropic-version", Some "2023-06-01")];
     f_body := JSON_stringify body |}.

Definition chat_try (req : Request) (res : Response) : M Response :=
  let! key := getenv "ANTHROPIC_API_KEY" in
  let! response := fetch (chat_request (body req) key) in
  let! data := await (r_json response) in
  ret (json_ data res).

Definition chat_catch (res : Response) (error : exn) : M Response :=
  ret (json_ (error_body "Something went wrong") (status 500 res)).

(** The handler of [app.post('/api/chat', ...)]. *)
Definition chat (req : Request) (res : Response) : M Response :=
  try_catch (chat_try req res) (chat_catch res).

Definition speak_try (req : Request) (res : Response) : M Response :=
  let! text := destructure "text" "req.body" (body req) in
  let! key := getenv "ELEVENLABS_API_KEY" in
  let! response := fetch (Speak.provider_request text key) in
  if negb (ok response) then
    let! err := await (r_json response) in
    ret (json_ (JObj [("error", err)]) (status 500 res))
  else
    let! audioBuffer := await (r_arrayBuffer response) in
    let res := setHeader "Content-Type" "audio/mpeg" res in
    ret (send audioBuffer res).

Definition speak_catch (res : Response) (error : exn) : M Response :=
  ret (json_ (error_body "Voice failed") (status 500 res)).

(** The handler of [app.post('/api/speak', ...)]. *)
Definition speak (req : Request) (res : Response) : M Response :=
  try_catch (speak_try req res) (speak_catch res).

(** The routes of [app]: both are registered with [app.post], so a handler
    runs only for a POST to its path; [None] is a request no route of the
    repository takes. *)
Definition app (path : string) (req : Request) (res : Response) : option (M Response) :=
  if String.eqb (method req) "POST" then
    if String.eqb path "/api/chat" then Some (chat req res)
    else if String.eqb path "/api/speak" then Some (speak req res)
    else None
  else None.

End Server.

(** ** A concrete world, to run the handlers on *)

Module Sample.

(** Base64 (RFC 4648, both alphabets): decoding stops at the padding and
    skips what is outside the alphabet. *)
Definition sextet (c : ascii) : option N :=
  let n := N_of_ascii c in
  if ((65 <=? n) && (n <=? 90))%N then Some (n - 65)%N
  else if ((97 <=? n) && (n <=? 122))%N then Some (n - 71)%N
  else if ((48 <=? n) && (n <=? 57))%N then Some (n + 4)%N
  else if ((n =? 43) || (n =? 45))%N then Some 62%N
  else if ((n =? 47) || (n =? 95))%N then Some 63%N
  else None.

Fixpoint sextets (s : string) : list N :=
  match s with
  | EmptyString => []
  | String c s' =>
      if Ascii.eqb c "=" then []
      else match sextet c with
           | Some n => n :: sextets s'
           | None => sextets s'
           end
  end.

Definition byte_of_N (n : N) : Byte.byte :=
  match Byte.of_N (n mod 256) with
  | Some b => b
  | None => Byte.x00
  end.

Fixpoint bytes_of_sextets (l : list N) : Buffer :=
  match l with
  | a :: b :: c :: d :: rest =>
      byte_of_N (a * 4 + b / 16)
      :: byte_of_N (b * 16 + c / 4)
      :: byte_of_N (c * 64 + d)
      :: bytes_of_sextets rest
  | [a; b; c] => [byte_of_N (a * 4 + b / 16); byte_of_N (b * 16 + c / 4)]
  | [a; b] => [byte_of_N (a * 4 + b / 16)]
  | _ => []
  end%N.

Definition decode (s : string) : Buffer := bytes_of_sextets (sextets s).

(** A deployment with the given environment and providers. *)
Definition world (e : gmap string string) (provider : FetchReq -> result FetchResp)
    (sdk : RecogReq -> RecogOutcome) : World :=
  {| env := e;
     net := provider;
     speech_sdk := sdk;
     base64_decode := decode;
     Buffer_from_other := fun _ =>
       Thrown (Error "The first argument must be of type string or an instance of Buffer, ArrayBuffer, or Array or an Array-like Object.");
     form_stream_error := fun _ => None;
     form_getHeaders := fun _ =>
       [("content-type", Some "multipart/form-data; boundary=--------------------------515890814546601021194782")] |}.

Definition azure_env : gmap string string :=
  {[ "AZURE_SPEECH_KEY" := "0123456789abcdef"; "AZURE_SPEECH_REGION" := "northeurope" ]}.

Definition no_sdk : RecogReq -> RecogOutcome := fun _ => SdkError "no SDK in this deployment".

(** A provider that answers every request with the same response. *)
Definition always (r : result FetchResp) : FetchReq -> result FetchResp := fun _ => r.

Definition json_response (good : bool) (code : Z) (v : json) : FetchResp :=
  {| ok := good; r_status := code;
     r_text := Thrown (Error "body used already");
     r_json := Ok v;
     r_arrayBuffer := Thrown (Error "body used already") |}.

Definition text_response (good : bool) (code : Z) (t : string) : FetchResp :=
  {| ok := good; r_status := code;
     r_text := Ok t;
     r_json := Thrown (Error "body used already");
     r_arrayBuffer := Thrown (Error "body used already") |}.



(** A speech SDK whose [SpeechRecognizer] has no [fromConfig]: creating the
    recognizer throws. *)
Definition sdk_without_fromConfig : RecogReq -> RecogOutcome :=
  fun _ => SdkThrows (Error "sdk.SpeechRecognizer.fromConfig is not a function").

Definition post (b : value) : Request := {| method := "POST"; body := b |}.

(** [JSON.parse] on the texts the examples use: the empty object and
    [null] parse, anything else is refused. *)
Definition parse (s : string) : result json :=
  if String.eqb s "{}" then Ok (JObj [])
  else if String.eqb s "null" then Ok JNull
  else Thrown (Error "Unexpected token").

(** The prompt of the examples. *)
Definition prompt : string := "You are Finbar, a Munster Irish conversation coach.".

End Sample.

(** ** The browser client: the conversation loop of [App] *)

Module App.

(** *** Strings of the browser *)

(** Strings are held as their UTF-8 bytes.  The white space that
    [String.prototype.trim] removes: TAB, LF, VT, FF, CR, SP, NBSP, the
    Unicode space separators, LS, PS and the BOM. *)
Definition bytes (l : list nat) : string :=
  string_of_list_ascii (map ascii_of_nat l).

Definition white_space : list string :=
  map bytes
    ([[9]; [10]; [11]; [12]; [13]; [32]; [194; 160]; [225; 154; 128]]
     ++ map (fun n => [226; 128; n]) [128; 129; 130; 131; 132; 133; 134; 135; 136; 137; 138]
     ++ [[226; 128; 168]; [226; 128; 169]; [226; 128; 175]; [226; 129; 159];
         [227; 128; 128]; [239; 187; 191]])%nat.

Fixpoint strip_prefix (p s : string) : option string :=
  match p, s with
  | EmptyString, _ => Some s
  | String a p', String b s' => if Ascii.eqb a b then strip_prefix p' s' else None
  | String _ _, EmptyString => None
  end.

(** [s] without one leading white space character, if it starts with one. *)
Fixpoint strip_space (ws : list string) (s : string) : option string :=
  match ws with
  | [] => None
  | p :: ws' =>
      match strip_prefix p s with
      | Some s' => Some s'
      | None => strip_space ws' s
      end
  end.

Fixpoint trim_start_fuel (n : nat) (ws : list string) (s : string) : string :=
  match n with
  | O => s
  | S n' =>
      match strip_space ws s with
      | Some s' => trim_start_fuel n' ws s'
      | None => s
      end
  end.

Definition reverse (s : string) : string :=
  string_of_list_ascii (rev (list_ascii_of_string s)).

Definition trimStart (s : string) : string :=
  trim_start_fuel (String.length s) white_space s.

Definition trimEnd (s : string) : string :=
  reverse (trim_start_fuel (String.length s) (map reverse white_space) (reverse s)).

(** [s.trim()] *)
Definition trim (s : string) : string := trimEnd (trimStart s).

(** [raw.match(/\{[\s\S]*\}/)]: the text from the first opening brace to the
    last closing brace after it. *)
Fixpoint from_open (s : string) : option string :=
  match s with
  | EmptyString => None
  | String c s' => if Ascii.eqb c "{" then Some s else from_open s'
  end.

Fixpoint upto_close (s : string) : option string :=
  match s with
  | EmptyString => None
  | String c s' =>
      match upto_close s' with
      | Some p => Some (String c p)
      | None => if Ascii.eqb c "}" then Some (String c "") else None
      end
  end.

Definition brace_region (s : string) : option string :=
  match from_open s with
  | Some t => upto_close t
  | None => None
  end.

(** [raw.match(...)] for any [raw]: only a string has the method. *)
Definition match_ (raw : json) : result (option string) :=
  match raw with
  | JStr s => Ok (brace_region s)
  | _ => Thrown (Error "raw.match is not a function")
  end.

(** *** State *)

(** An entry of [messages]. *)
Inductive bubble : Type :=
| UserMsg (text : string)                 (* [{role:"user", text}] *)
| CoachMsg (text : value) (words : json). (* [{role:"coach", text, words}] *)

(** An entry of [history.current]. *)
Record turn : Type := Turn { role : string; content : json }.

Definition json_of_turn (t : turn) : json :=
  JObj [("role", JStr (role t)); ("content", content t)].

(** The state of [App]: its state hooks, the [history] ref, and, for the
    asynchronous calls, the bodies of the chat requests that have not
    settled yet and the replies handed to the auto-speak timer. *)
Record State : Type := {
  messages : list bubble;
  input : string;
  loading : bool;
  suggestions : json;
  started : bool;
  authenticated : bool;
  password : string;
  error : option string;
  speaking : bool;
  history : list turn;
  pending : list json;
  utterances : list value
}.

Definition init : State :=
  {| messages := []; input := ""; loading := false; suggestions := JArr [];
     started := false; authenticated := false; password := ""; error := None;
     speaking := false; history := []; pending := []; utterances := [] |}.

Definition setMessages (f : list bubble -> list bubble) (st : State) : State :=
  let '(Build_State m i l s b a p e k h q u) := st in Build_State (f m) i l s b a p e k h q u.
Definition setInput (x : string) (st : State) : State :=
  let '(Build_State m i l s b a p e k h q u) := st in Build_State m x l s b a p e k h q u.
Definition setLoading (x : bool) (st : State) : State :=
  let '(Build_State m i l s b a p e k h q u) := st in Build_State m i x s b a p e k h q u.
Definition setSuggestions (x : json) (st : State) : State :=
  let '(Build_State m i l s b a p e k h q u) := st in Build_State m i l x b a p e k h q u.
Definition setStarted (x : bool) (st : State) : State :=
  let '(Build_State m i l s b a p e k h q u) := st in Build_State m i l s x a p e k h q u.
Definition setAuthenticated (x : bool) (st : State) : State :=
  let '(Build_State m i l s b a p e k h q u) := st in Build_State m i l s b x p e k h q u.
Definition setPassword (x : string) (st : State) : State :=
  let '(Build_State m i l s b a p e k h q u) := st in Build_State m i l s b a x e k h q u.
Definition setError (x : option string) (st : State) : State :=
  let '(Build_State m i l s b a p e k h q u) := st in Build_State m i l s b a p x k h q u.
Definition setSpeaking (x : bool) (st : State) : State :=
  let '(Build_State m i l s b a p e k h q u) := st in Build_State m i l s b a p e x h q u.
Definition history_push (t : turn) (st : State) : State :=
  let '(Build_State m i l s b a p e k h q u) := st in Build_State m i l s b a p e k (h ++ [t]) q u.
Definition set_pending (x : list json) (st : State) : State :=
  let '(Build_State m i l s b a p e k h q u) := st in Build_State m i l s b a p e k h x u.
Definition setTimeout_speak (t : value) (st : State) : State :=
  let '(Build_State m i l s b a p e k h q u) := st in Build_State m i l s b a p e k h q (u ++ [t]).

(** *** Client computations: state updates and throws *)

Definition C (A : Type) : Type := State -> result A * State.

Definition cret {A} (a : A) : C A := fun st => (Ok a, st).
Definition cthrow {A} (e : exn) : C A := fun st => (Thrown e, st).
Definition cbind {A B} (m : C A) (k : A -> C B) : C B :=
  fun st =>
    match m st with
    | (Ok a, st') => k a st'
    | (Thrown e, st') => (Thrown e, st')
    end.
Definition update (f : State -> State) : C unit := fun st => (Ok tt, f st).
Definition of_result {A} (r : result A) : C A := fun st => (r, st).

(** [try { m } catch { h } finally { f }] *)
Definition try_catch_finally (m : C unit) (h : State -> State) (f : State -> State) : C unit :=
  fun st =>
    match m st with
    | (Ok _, st') => (Ok tt, f st')
    | (Thrown _, st') => (Ok tt, f (h st'))
    end.

(** [v.k] *)
Definition cmember (k : string) (v : json) : C value :=
  match v with
  | JNull => cthrow (Error ("Cannot read properties of null (reading '" +:+ k +:+ "')"))
  | x => cret (prop k x)
  end.

Notation "'let*' x ':=' m 'in' k" := (cbind m (fun x => k))
  (at level 10, x name, m at level 100, k at level 200).

Section client.

(** The prompt text is passed along and never looked at. *)
Variable SYSTEM_PROMPT : string.
(** [JSON.parse] *)
Variable JSON_parse : string -> result json.

(** What the inner [try] block of [callClaude] computes from the raw
    text of the reply: [JSON.parse(m ? m[0] : raw)]. *)
Definition deserialize_try (raw : json) : result json :=
  match match_ raw, raw with
  | Ok (Some m0), _ => JSON_parse m0
  | Ok None, JStr s => JSON_parse s
  | Ok None, _ => Thrown (Error "raw.match is not a function")
  | Thrown e, _ => Thrown e
  end.

(** What its [catch] block puts in place of a failed parse. *)
Definition fallback (raw : json) : json :=
  JObj [("message", raw); ("words", JArr []); ("suggestions", JArr [])].

(** The chat turn read off the raw text of the reply: the inner
    [try]/[catch] of [callClaude]. *)
Definition deserialize (raw : json) : result json :=
  match deserialize_try raw with
  | Ok parsed => Ok parsed
  | Thrown _ => Ok (fallback raw)
  end.

(** The body of the chat request for the turns [msgs]. *)
Definition chat_body (msgs : list turn) : json :=
  JObj [("model", JStr "claude-sonnet-4-20250514");
        ("max_tokens", JNum 1000 0);
        ("system", JStr SYSTEM_PROMPT);
        ("messages", JArr (map json_of_turn msgs))].

(** [callClaude(userMsg)] up to its [fetch]. *)
Definition callClaude_begin (userMsg : option string) (st : State) : State :=
  let st := setLoading true st in
  let st := setError None st in
  let st :=
    match userMsg with
    | Some u => if truthy_str userMsg then history_push (Turn "user" (JStr u)) st else st
    | None => st
    end in
  let msgs :=
    if (0 <? length (history st))%nat then history st
    else [Turn "user" (JStr "Please start the lesson!")] in
  set_pending (pending st ++ [chat_body msgs]) st.

(** [callClaude] from the moment its [fetch] and [res.json()] settled
    with [data]. *)
Definition callClaude_try (data : result json) : C unit :=
  let* data := of_result data in
  let* content := cmember "content" data in
  let raw := or_else (opt_chain (prop "text") (opt_chain index0 content)) (JStr "") in
  let* parsed := of_result (deserialize raw) in
  let* _ := update (history_push (Turn "assistant" raw)) in
  let* message := cmember "message" parsed in
  let* words := cmember "words" parsed in
  let coachMsg := CoachMsg message (or_else words (JArr [])) in
  let* _ := update (setMessages (fun prev => prev ++ [coachMsg])) in
  let* suggestions := cmember "suggestions" parsed in
  let* _ := update (setSuggestions (or_else suggestions (JArr []))) in
  let* message_spoken := cmember "message_spoken" parsed in
  update (setTimeout_speak
            (match message_spoken with
             | Some x => if truthy message_spoken then Some x else message
             | None => message
             end)).

(** The [try]/[catch]/[finally] of [callClaude], from the moment the call
    settled. *)
Definition callClaude_settle (data : result json) : C unit :=
  try_catch_finally (callClaude_try data)
    (setError (Some "Couldn't connect to Finbar. Please try again."))
    (setLoading false).

(** The state once the oldest pending call settled with [data]. *)
Definition callClaude_resume (data : result json) (st : State) : State :=
  snd (callClaude_settle data (set_pending (tl (pending st)) st)).

(** [stopSpeaking()] *)
Definition stopSpeaking (st : State) : State := setSpeaking false st.

(** [send(text)] *)
Definition send (text : option string) (st : State) : State :=
  let msg := or_else_str text (trim (input st)) in
  if negb (truthy_str (Some msg)) || loading st then st
  else
    let st := stopSpeaking st in
    let st := setMessages (fun prev => prev ++ [UserMsg msg]) st in
    let st := setInput "" st in
    let st := setSuggestions (JArr []) st in
    callClaude_begin (Some msg) st.

(** *** What the user and the network can do *)

Inductive screen : Type := Login | Welcome | Chat.

(** The screen [App] renders. *)
Definition render (st : State) : screen :=
  if negb (authenticated st) then Login
  else if negb (started st) then Welcome
  else Chat.

Inductive event : Type :=
| TypePassword (s : string)     (* the password field changes *)
| Unlock                        (* Enter in the field, or the Unlock button *)
| Start                         (* the start button *)
| Edit (s : string)             (* the text area changes, by hand or by voice *)
| Send (text : option string)   (* Enter, the send button, a suggested reply *)
| Settled (data : result json)  (* the oldest chat call settles *)
| Speaking (b : bool).          (* playback starts or stops *)

(** The state after an event; [None] when the screen does not offer it. *)
Definition handle (ev : event) (st : State) : option State :=
  match ev, render st with
  | TypePassword s, Login => Some (setPassword s st)
  | Unlock, Login =>
      if String.eqb (password st) "luke123" then Some (setAuthenticated true st)
      else Some st
  | Start, Welcome => Some (callClaude_begin None (setStarted true st))
  | Edit s, Chat => Some (setInput s st)
  | Send text, Chat => Some (send text st)
  | Settled data, _ =>
      match pending st with
      | [] => None
      | _ :: _ => Some (callClaude_resume data st)
      end
  | Speaking b, Chat => Some (setSpeaking b st)
  | _, _ => None
  end.

(** The states of a session. *)
Inductive reachable : State -> Prop :=
| reachable_init : reachable init
| reachable_step st ev st' :
    reachable st -> handle ev st = Some st' -> reachable st'.

End client.

End App.

(** ** The browser client: how a coach message is displayed ([Bubble]) *)

Module Bubble.

(** The longest prefix of [s] without an asterisk, and what follows it. *)
Fixpoint span_plain (s : string) : string * string :=
  match s with
  | EmptyString => ("", "")
  | String c s' =>
      if Ascii.eqb c "*" then ("", s)
      else let '(p, r) := span_plain s' in (String c p, r)
  end.

(** A match of the highlight pattern at the start of [s] (two asterisks,
    one or more characters that are no asterisk, two asterisks): the text
    between the markers and what follows the match. *)
Definition match_at (s : string) : option (string * string) :=
  match s with
  | String a (String b t) =>
      if Ascii.eqb a "*" && Ascii.eqb b "*" then
        match span_plain t with
        | (String c inner, String d (String e rest)) =>
            if Ascii.eqb d "*" && Ascii.eqb e "*" then Some (String c inner, rest)
            else None
        | _ => None
        end
      else None
  | _ => None
  end.

(** [text.split] on the highlight pattern with its capturing group,
    scanning [s] with [piece] the text since the last match: the pieces
    between the matches and, between two pieces, the match itself. *)
Fixpoint split_from (fuel : nat) (piece s : string) : list string :=
  match fuel with
  | O => [piece +:+ s]
  | S n =>
      match match_at s with
      | Some (inner, rest) =>
          piece :: ("**" +:+ inner +:+ "**") :: split_from n "" rest
      | None =>
          match s with
          | EmptyString => [piece]
          | String c s' => split_from n (piece +:+ String c "") s'
          end
      end
  end.

Definition split (text : string) : list string :=
  split_from (S (String.length text)) "" text.

(** [p.startsWith("**")] and [p.endsWith("**")] *)
Definition startsWith_stars (p : string) : bool := String.prefix "**" p.

Definition endsWith_stars (p : string) : bool :=
  String.eqb (String.substring (String.length p - 2) 2 p) "**".

(** [p.slice(2, -2)] *)
Definition slice_2 (p : string) : string :=
  String.substring 2 (String.length p - 2 - 2) p.

(** A span of the rendered message: highlighted or plain. *)
Inductive span : Type :=
| Bold (s : string)
| Plain (s : string).

Definition render_piece (p : string) : span :=
  if startsWith_stars p && endsWith_stars p then Bold (slice_2 p) else Plain p.

(** [render(text)]: only a string has [split]. *)
Definition render (text : value) : result (list span) :=
  match text with
  | Some (JStr s) => Ok (map render_piece (split s))
  | Some JNull => Thrown (Error "Cannot read properties of null (reading 'split')")
  | None => Thrown (Error "Cannot read properties of undefined (reading 'split')")
  | Some _ => Thrown (Error "text.split is not a function")
  end.

(** The characters a span shows. *)
Definition shown (sp : span) : string :=
  match sp with
  | Bold s => s
  | Plain s => s
  end.

End Bubble.

(** ** The browser client: spoken replies ([speak], [stopSpeaking]) *)

Module Voice.

(** [text.replace] of every pair of asterisks by nothing. *)
Fixpoint clean (s : string) : string :=
  match s with
  | EmptyString => ""
  | String a t =>
      match t with
      | String b t' =>
          if Ascii.eqb a "*" && Ascii.eqb b "*" then clean t'
          else String a (clean t)
      | EmptyString => s
      end
  end.

(** An [Audio] element: the object URL it plays, and whether it plays. *)
Record audio : Type := Audio { src : nat; playing : bool }.

(** What [speak] and [stopSpeaking] read and write: the [speaking] hook,
    every [Audio] element created so far with [audioRef.current] as an
    index among them, the queue of [window.speechSynthesis], the object
    URLs revoked, and the cleaned texts of the calls of the speech relay
    that have not settled. *)
Record State : Type := {
  speaking : bool;
  audios : list audio;
  audioRef : option nat;
  synthesis : list string;
  revoked : list nat;
  requests : list string
}.

Definition init : State :=
  {| speaking := false; audios := []; audioRef := None; synthesis := [];
     revoked := []; requests := [] |}.

Definition setSpeaking (b : bool) (st : State) : State :=
  {| speaking := b; audios := audios st; audioRef := audioRef st;
     synthesis := synthesis st; revoked := revoked st; requests := requests st |}.

(** [audio.pause()] on the element [j] *)
Definition pause (j : nat) (st : State) : State :=
  {| speaking := speaking st;
     audios := alter (fun a => Audio (src a) false) j (audios st);
     audioRef := audioRef st;
     synthesis := synthesis st; revoked := revoked st; requests := requests st |}.

(** [URL.revokeObjectURL(audio.src)] for the element [j] *)
Definition revoke (j : nat) (st : State) : State :=
  {| speaking := speaking st; audios := audios st; audioRef := audioRef st;
     synthesis := synthesis st;
     revoked := match audios st !! j with
                | Some a => revoked st ++ [src a]
                | None => revoked st
                end;
     requests := requests st |}.

(** [new Audio(url)] for a fresh object URL, kept in [audioRef.current]
    and played. *)
Definition play_new (st : State) : State :=
  {| speaking := speaking st;
     audios := audios st ++ [Audio (length (audios st)) true];
     audioRef := Some (length (audios st));
     synthesis := synthesis st; revoked := revoked st; requests := requests st |}.

(** [window.speechSynthesis.speak(new SpeechSynthesisUtterance(t))] *)
Definition synthesis_speak (t : string) (st : State) : State :=
  {| speaking := speaking st; audios := audios st; audioRef := audioRef st;
     synthesis := synthesis st ++ [t]; revoked := revoked st; requests := requests st |}.

(** [window.speechSynthesis.cancel()] *)
Definition synthesis_cancel (st : State) : State :=
  {| speaking := speaking st; audios := audios st; audioRef := audioRef st;
     synthesis := []; revoked := revoked st; requests := requests st |}.

Definition set_requests (l : list string) (st : State) : State :=
  {| speaking := speaking st; audios := audios st; audioRef := audioRef st;
     synthesis := synthesis st; revoked := revoked st; requests := l |}.

(** [speak(text)] up to its [fetch]: the text is cleaned before the [try],
    so a text that is no string throws and nothing else happens. *)
Definition speak_begin (text : value) (st : State) : result State :=
  match text with
  | Some (JStr s) =>
      Ok (set_requests (requests st ++ [clean s]) (setSpeaking true st))
  | Some JNull => Thrown (Error "Cannot read properties of null (reading 'replace')")
  | None => Thrown (Error "Cannot read properties of undefined (reading 'replace')")
  | Some _ => Thrown (Error "text.replace is not a function")
  end.

(** How a call of the speech relay settles. *)
Inductive relay_outcome : Type :=
| Rejected (e : exn)     (* [fetch] or [res.blob()] rejects *)
| NotOk                  (* a response that is not ok *)
| Blob.                  (* an ok response and its blob *)

(** [speak] from the moment its call for the cleaned text [c] settled. *)
Definition speak_resume (c : string) (o : relay_outcome) (st : State) : State :=
  match o with
  | NotOk => setSpeaking false (synthesis_speak c st)
  | Blob =>
      let st :=
        match audioRef st with
        | Some j => revoke j (pause j st)
        | None => st
        end in
      play_new st
  | Rejected _ => setSpeaking false st
  end.

(** [stopSpeaking()] *)
Definition stopSpeaking (st : State) : State :=
  setSpeaking false (synthesis_cancel st).

(** The element [j] stops by itself (it ended or failed): it plays no
    more, and its [onended] or [onerror] runs. *)
Definition audio_stopped (j : nat) (st : State) : State :=
  setSpeaking false (pause j st).

Inductive event : Type :=
| Speak (text : value)                 (* the timer of a reply, or "Hear this" *)
| Settle (i : nat) (o : relay_outcome) (* the call [i] of the relay settles *)
| Stopped (j : nat)                    (* the element [j] ends or fails *)
| Stop.                                (* the Stop button *)

(** The state after an event; [None] when the event cannot happen or the
    handler throws. *)
Definition handle (ev : event) (st : State) : option State :=
  match ev with
  | Speak text =>
      match speak_begin text st with
      | Ok st' => Some st'
      | Thrown _ => None
      end
  | Settle i o =>
      match requests st !! i with
      | Some c => Some (speak_resume c o (set_requests (delete i (requests st)) st))
      | None => None
      end
  | Stopped j =>
      match audios st !! j with
      | Some a => if playing a then Some (audio_stopped j st) else None
      | None => None
      end
  | Stop => Some (stopSpeaking st)
  end.

Inductive reachable : State -> Prop :=
| reachable_init : reachable init
| reachable_step st ev st' :
    reachable st -> handle ev st = Some st' -> reachable st'.

End Voice.

(** ** The browser client: voice input ([startListening], [stopListening]) *)

Module Listening.

(** A call on a recognizer. *)
Inductive command : Type :=
| RStart (r : nat)      (* [recognition.start()] *)
| RStop (r : nat).      (* [recognition.stop()] *)

(** What the voice input reads and writes: the [input] and [listening]
    hooks, [recognitionRef.current] as the number of a recognizer, how many
    recognizers were created, the calls made on them and the alerts
    shown. *)
Record State : Type := {
  input : string;
  listening : bool;
  recognitionRef : option nat;
  created : nat;
  commands : list command;
  alerts : list string
}.

Definition init : State :=
  {| input := ""; listening := false; recognitionRef := None; created := 0%nat;
     commands := []; alerts := [] |}.

Definition setListening (b : bool) (st : State) : State :=
  {| input := input st; listening := b; recognitionRef := recognitionRef st;
     created := created st; commands := commands st; alerts := alerts st |}.

Definition setInput (f : string -> string) (st : State) : State :=
  {| input := f (input st); listening := listening st;
     recognitionRef := recognitionRef st; created := created st;
     commands := commands st; alerts := alerts st |}.

Definition call (c : command) (st : State) : State :=
  {| input := input st; listening := listening st;
     recognitionRef := recognitionRef st; created := created st;
     commands := commands st ++ [c]; alerts := alerts st |}.

(** [startListening()]; [supported] tells whether the browser has
    [SpeechRecognition] or [webkitSpeechRecognition]. *)
Definition startListening (supported : bool) (st : State) : State :=
  if negb supported then
    {| input := input st; listening := listening st;
       recognitionRef := recognitionRef st; created := created st;
       commands := commands st;
       alerts := alerts st ++ ["Sorry, your browser doesn't support voice input. Try Chrome!"] |}
  else
    let recognition := created st in
    call (RStart recognition)
      {| input := input st; listening := listening st;
         recognitionRef := Some recognition; created := S (created st);
         commands := commands st; alerts := alerts st |}.

(** [recognition.onstart] *)
Definition onstart (st : State) : State := setListening true st.

(** [recognition.onresult], for the transcript of the last result *)
Definition onresult (transcript : string) (st : State) : State :=
  setInput (fun prev =>
              prev +:+ (if truthy_str (Some prev) then " " else "") +:+ transcript) st.

(** [recognition.onerror]: the error is logged, nothing changes. *)
Definition onerror (st : State) : State := st.

(** [recognition.onend] *)
Definition onend (st : State) : State :=
  match recognitionRef st with
  | Some r => call (RStart r) st
  | None => st
  end.

(** [stopListening()] *)
Definition stopListening (st : State) : State :=
  setListening false
    (match recognitionRef st with
     | Some r => call (RStop r) st
     | None => st
     end).

(** The mic button: [onClick={listening ? stopListening : startListening}] *)
Definition mic_click (supported : bool) (st : State) : State :=
  if listening st then stopListening st else startListening supported st.

Inductive event : Type :=
| Mic (supported : bool)
| Started
| Result (transcript : string)
| Errored
| Ended.

Definition handle (ev : event) (st : State) : State :=
  match ev with
  | Mic supported => mic_click supported st
  | Started => onstart st
  | Result t => onresult t st
  | Errored => onerror st
  | Ended => onend st
  end.

(** The state after a sequence of events. *)
Definition run_events (evs : list event) (st : State) : State :=
  fold_left (fun st ev => handle ev st) evs st.

End Listening.

(** ** The browser client: what the chat screen offers *)

Module ChatView.

(** The send button is disabled: [!input.trim() || loading]. *)
Definition send_disabled (st : App.State) : bool :=
  negb (truthy_str (Some (App.trim (App.input st)))) || App.loading st.

End ChatView.

(** ** Sample sessions of the client *)

Module Session.

(** A reply of the chat relay whose first content block holds the text [t]. *)
Definition reply (t : string) : json :=
  JObj [("content", JArr [JObj [("type", JStr "text"); ("text", JStr t)]])].

(** The password was typed and accepted. *)
Definition unlocked : App.State :=
  App.setAuthenticated true (App.setPassword "luke123" App.init).

(** The start button was pressed: the opening call is pending. *)
Definition started : App.State :=
  App.callClaude_begin Sample.prompt None (App.setStarted true unlocked).

(** The opening call was answered with the text [t]. *)
Definition replied (t : string) : App.State :=
  App.callClaude_resume Sample.parse (Ok (reply t)) started.

(** The voice after a sequence of events, when each of them can happen. *)
Fixpoint voice_run (evs : list Voice.event) (st : Voice.State) : option Voice.State :=
  match evs with
  | [] => Some st
  | ev :: evs' =>
      match Voice.handle ev st with
      | Some st' => voice_run evs' st'
      | None => None
      end
  end.

End Session.

(** * Properties *)

(** ** Vocabulary of the statements *)

(** Running a handler in a world. *)
Definition run {A} (w : World) (m : M A) : list call * result A := m w.

(** The provider calls a handler made, and the response it left. *)
Definition calls {A} (w : World) (m : M A) : list call := fst (m w).
Definition outcome {A} (w : World) (m : M A) : result A := snd (m w).

(** Both Azure variables are set and not empty. *)
Definition configured (w : World) : bool :=
  truthy_str (env w !! "AZURE_SPEECH_KEY") && truthy_str (env w !! "AZURE_SPEECH_REGION").

(** The [audio] field the transcription handlers read off the request. *)
Definition audio_of (req : Request) : value :=
  prop "audio" (or_else (body req) (JObj [])).

(** [res] after the three CORS headers of the REST transcription handlers. *)
Definition with_cors (res : Response) : Response :=
  setHeader "Access-Control-Allow-Headers" "Content-Type"
    (setHeader "Access-Control-Allow-Methods" "POST, OPTIONS"
       (setHeader "Access-Control-Allow-Origin" "*" res)).

(** A response with a JSON error envelope. *)
Definition error_response (code : Z) (msg : string) (res : Response) : Response :=
  json_ (error_body msg) (status code res).

Definition is_client_error (res : Response) : bool :=
  (400 <=? statusCode res) && (statusCode res <=? 499).

Definition is_server_error (res : Response) : bool :=
  (500 <=? statusCode res) && (statusCode res <=? 599).

(** A handler turns every exception of its [try] block into a 500 whose
    message is [msg] of the exception, and lets none escape. *)
Definition converts (w : World) (try_block handler : M Response)
    (msg : exn -> string) (res : Response) : Prop :=
  (exists r, outcome w handler = Ok r)
  /\ forall e, outcome w try_block = Thrown e ->
       outcome w handler = Ok (error_response 500 (msg e) res).

(** The message of the transcription handlers for an exception. *)
Definition transcription_failed (e : exn) : string :=
  "Transcription failed: " +:+ or_else_str (message e) "Unknown error".

(** [result.combinedPhrases?.[0]?.text || ''] and
    [result.phrases?.[0]?.locale || ''] for a [result] that is not null. *)
Definition first_text (result : json) : json :=
  or_else (opt_chain (prop "text") (opt_chain index0 (prop "combinedPhrases" result)))
          (JStr "").

Definition first_locale (result : json) : json :=
  or_else (opt_chain (prop "locale") (opt_chain index0 (prop "phrases" result)))
          (JStr "").

(** The request a REST transcription handler sends for the decoded audio. *)
Definition azure_request (w : World) (form : FormData) (b : req_body) : FetchReq :=
  {| url := Transcribe.endpoint (env w !! "AZURE_SPEECH_REGION");
     f_method := "POST";
     f_headers := ("Ocp-Apim-Subscription-Key", env w !! "AZURE_SPEECH_KEY")
                  :: form_getHeaders w form;
     f_body := b |}.

(** Whether the character [c] occurs in [s]. *)
Fixpoint has_char (c : ascii) (s : string) : bool :=
  match s with
  | EmptyString => false
  | String c' s' => Ascii.eqb c' c || has_char c s'
  end.

(** At most one chat call has not settled, and [loading] tells whether
    there is one. *)
Definition one_turn (st : App.State) : Prop :=
  (App.loading st = false /\ App.pending st = [])
  \/ (App.loading st = true /\ App.started st = true
      /\ exists b, App.pending st = [b]).

(** What the status of a REST transcription response tells about the
    request [req] and the provider calls [t] made for it. *)
Definition status_tells (w : World) (req : Request) (t : list call) (r : Response) : Prop :=
  In (statusCode r) [200; 400; 405; 500; 502]
  /\ (statusCode r = 502 ->
      exists rq resp, t = [CFetch rq] /\ net w rq = Ok resp /\ ok resp = false)
  /\ (statusCode r = 200 ->
      method req = "OPTIONS"
      \/ exists rq resp, t = [CFetch rq] /\ net w rq = Ok resp /\ ok resp = true)
  /\ (statusCode r = 400 \/ statusCode r = 405 -> t = []).

(** The session is behind the password: nothing of a conversation exists
    before the start button was used, the start button is offered only
    after the unlocking, and the unlocking needs the password. *)
Definition gated (st : App.State) : Prop :=
  (App.authenticated st = true -> App.password st = "luke123")
  /\ (App.started st = true -> App.authenticated st = true)
  /\ (App.started st = false ->
      App.history st = [] /\ App.messages st = [] /\ App.pending st = []
      /\ App.loading st = false /\ App.utterances st = []).

(** The turns a chat request carries for the recorded [history]. *)
Definition turns_sent (history : list App.turn) : list App.turn :=
  match history with
  | [] => [App.Turn "user" (JStr "Please start the lesson!")]
  | _ :: _ => history
  end.

(** The text of the first content block of a reply, or the empty string. *)
Definition raw_of (data : json) : json :=
  or_else (opt_chain (prop "text") (opt_chain index0 (prop "content" data))) (JStr "").

(** A pending chat request carries the recorded conversation. *)
Definition carries (prompt : string) (st : App.State) : Prop :=
  forall b, In b (App.pending st) ->
    b = App.chat_body prompt (turns_sent (App.history st)).

(** The text a reply is parsed from: the region between the braces, or the
    whole text. *)
Definition candidate (raw : string) : string :=
  match App.brace_region raw with
  | Some m => m
  | None => raw
  end.

(** Whether two asterisks stand side by side in [s]. *)
Fixpoint has_double_star (s : string) : bool :=
  match s with
  | EmptyString => false
  | String a t =>
      match t with
      | String b _ => (Ascii.eqb a "*" && Ascii.eqb b "*") || has_double_star t
      | EmptyString => false
      end
  end.

(** A message written with highlights: the plain text [p0], then for each
    pair a highlighted text between two pairs of asterisks and the plain
    text after it. *)
Fixpoint markup (p0 : string) (l : list (string * string)) : string :=
  match l with
  | [] => p0
  | (b, p) :: l' => p0 +:+ "**" +:+ b +:+ "**" +:+ markup p l'
  end.

(** The spans of such a message. *)
Fixpoint spans_of (p0 : string) (l : list (string * string)) : list Bubble.span :=
  match l with
  | [] => [Bubble.Plain p0]
  | (b, p) :: l' => Bubble.Plain p0 :: Bubble.Bold b :: spans_of p l'
  end.

(** The highlighted texts are not empty, and neither they nor the plain
    texts contain an asterisk. *)
Fixpoint well_marked (p0 : string) (l : list (string * string)) : bool :=
  negb (has_char "*" p0)
  && match l with
     | [] => true
     | (b, p) :: l' =>
         negb (String.eqb b "") && negb (has_char "*" b) && well_marked p l'
     end.

(** Only the element in [audioRef.current] plays. *)
Definition single_playing (st : Voice.State) : Prop :=
  forall i a, Voice.audios st !! i = Some a -> Voice.playing a = true ->
    Voice.audioRef st = Some i.

(** The parts of a dictation that are joined: the empty strings at the
    front are left out. *)
Fixpoint spoken_parts (l : list string) : list string :=
  match l with
  | EmptyString :: l' => spoken_parts l'
  | _ => l
  end.

(** What is typed after the transcripts [ts] were dictated onto [typed]. *)
Definition dictated (typed : string) (ts : list string) : string :=
  String.concat " " (spoken_parts (typed :: ts)).

(** ** Proof automation *)

Ltac unfold_eff :=
  unfold run, calls, outcome, member, destructure, recognizeOnce, try_catch, bind,
    await, getenv, fetch, Buffer_from, read_form, getHeaders, ret, throw in *.

Ltac post_method H :=
  rewrite ?H; change (String.eqb "POST" "OPTIONS") with false;
  change (String.eqb "POST" "POST") with true; cbn [negb].

Lemma configured_split w :
  configured w = true ->
  negb (truthy_str (env w !! "AZURE_SPEECH_KEY"))
  || negb (truthy_str (env w !! "AZURE_SPEECH_REGION")) = false.
Proof.
  unfold configured. intros [-> ->]%andb_true_iff. reflexivity.
Qed.


(** ** The transcription relay *)

Section transcription.
Context (w : World) (req : Request) (res : Response).


(** With its configuration, a transcription handler turns a request with
    no truthy [audio] down before it contacts anybody. *)
Lemma transcribe_try_no_audio :
  configured w = true ->
  truthy (audio_of req) = false ->
  run w (Transcribe.handler_try req res)
  = ([], Ok (error_response 400 Transcribe.no_audio res))
  /\ run w (TranscribeRestV1.handler_try req res)
    = ([], Ok (error_response 400 Transcribe.no_audio res))
  /\ run w (TranscribeSdk.handler_try req res)
    = ([], Ok (error_response 400 Transcribe.no_audio res)).
Proof.
  intros Hc%configured_split Ha. unfold audio_of in Ha.
  unfold Transcribe.handler_try, TranscribeRestV1.handler_try,
    TranscribeSdk.handler_try.
  unfold_eff. cbn. rewrite Hc, Ha. done.
Qed.

End transcription.

(** A request without a body carries no audio. *)
Lemma no_audio_of_absent_body (req : Request) :
  body req = None -> truthy (audio_of req) = false.
Proof. unfold audio_of. intros ->. reflexivity. Qed.

(** C10 (as amended): when both Azure variables are set, each of the three
    transcription handlers answers a POST whose body is absent or has no
    truthy [audio] with status 400 and the "no audio" message, and makes no
    provider call. *)
Theorem missing_audio_rejected (w : World) (req : Request) (res : Response) :
  method req = "POST" ->
  configured w = true ->
  truthy (audio_of req) = false ->
  run w (Transcribe.handler req res)
  = ([], Ok (error_response 400 Transcribe.no_audio (with_cors res)))
  /\ run w (TranscribeRestV1.handler req res)
     = ([], Ok (error_response 400 Transcribe.no_audio (with_cors res)))
  /\ run w (TranscribeSdk.handler req res)
     = ([], Ok (error_response 400 Transcribe.no_audio res)).
Proof.
  intros Hpost Hc Ha.
  unfold Transcribe.handler, TranscribeRestV1.handler, TranscribeSdk.handler.
  post_method Hpost.
  destruct (transcribe_try_no_audio w req (with_cors res) Hc Ha) as (H1 & H2 & _).
  destruct (transcribe_try_no_audio w req res Hc Ha) as (_ & _ & H3).
  unfold run, try_catch in *. fold (with_cors res).
  rewrite H1, H2, H3. done.
Qed.

Lemma missing_audio_rejected_witness :
  run (Sample.world Sample.azure_env (Sample.always (Thrown (Error "unreachable"))) Sample.no_sdk)
      (Transcribe.handler (Sample.post (Some (JObj [("audio", JStr "")]))) res0)
  = ([], Ok (error_response 400 Transcribe.no_audio (with_cors res0))).
Proof.
  apply (missing_audio_rejected
           (Sample.world Sample.azure_env (Sample.always (Thrown (Error "unreachable"))) Sample.no_sdk)
           (Sample.post (Some (JObj [("audio", JStr "")]))) res0);
    vm_compute; reflexivity.
Defined.

(** C10 as stated fails: with no Azure variables in the environment, a POST
    without a body is answered 500 ("not configured"), not 400. *)
Lemma missing_audio_unconfigured_500 :
  run (Sample.world ∅ (Sample.always (Thrown (Error "unreachable"))) Sample.no_sdk)
      (Transcribe.handler (Sample.post None) res0)
  = ([], Ok (error_response 500 Transcribe.not_configured (with_cors res0)))
  /\ truthy (audio_of (Sample.post None)) = false
  /\ statusCode (error_response 500 Transcribe.not_configured (with_cors res0)) <> 400.
Proof. vm_compute. repeat split; congruence. Qed.

(** ** Configuration *)






(** ** Methods *)

(** C6 (as amended): a request whose method is not POST never reaches a
    provider.  The speech function and the SDK transcription handler answer
    it 405; the two REST transcription handlers answer it 405 unless the
    method is OPTIONS, which they answer 200 with the CORS headers and an
    empty body; the routes of the local server are registered for POST only
    and do not run. *)
Theorem non_post_rejected (w : World) (req : Request) (res : Response) :
  method req <> "POST" ->
  run w (Speak.handler req res) = ([], Ok (error_response 405 "Method not allowed" res))
  /\ run w (TranscribeSdk.handler req res)
     = ([], Ok (error_response 405 "Method not allowed" res))
  /\ (method req <> "OPTIONS" ->
      run w (Transcribe.handler req res)
      = ([], Ok (error_response 405 "Method not allowed" (with_cors res)))
      /\ run w (TranscribeRestV1.handler req res)
         = ([], Ok (error_response 405 "Method not allowed" (with_cors res))))
  /\ (method req = "OPTIONS" ->
      run w (Transcribe.handler req res) = ([], Ok (end_ (status 200 (with_cors res))))
      /\ run w (TranscribeRestV1.handler req res)
         = ([], Ok (end_ (status 200 (with_cors res)))))
  /\ (forall path, Server.app path req res = None)
  /\ is_client_error (error_response 405 "Method not allowed" res) = true.
Proof.
  intros Hm. apply String.eqb_neq in Hm.
  unfold Speak.handler, TranscribeSdk.handler, Transcribe.handler,
    TranscribeRestV1.handler, Server.app.
  rewrite Hm. cbn [negb]. fold (with_cors res). unfold run, ret.
  repeat split; try done.
  - apply String.eqb_neq in H. by rewrite H.
  - apply String.eqb_neq in H. by rewrite H.
  - by rewrite H.
  - by rewrite H.
Qed.

Lemma non_post_rejected_witness :
  run (Sample.world Sample.azure_env (Sample.always (Thrown (Error "unreachable"))) Sample.no_sdk)
      (Speak.handler {| method := "GET"; body := None |} res0)
  = ([], Ok (error_response 405 "Method not allowed" res0)).
Proof.
  apply (non_post_rejected
           (Sample.world Sample.azure_env (Sample.always (Thrown (Error "unreachable"))) Sample.no_sdk)
           {| method := "GET"; body := None |} res0).
  vm_compute. congruence.
Defined.

(** C6 as stated fails: the REST transcription handler answers an OPTIONS
    request with status 200. *)
Lemma options_answered_200 :
  run (Sample.world Sample.azure_env (Sample.always (Thrown (Error "unreachable"))) Sample.no_sdk)
      (Transcribe.handler {| method := "OPTIONS"; body := None |} res0)
  = ([], Ok (end_ (status 200 (with_cors res0))))
  /\ is_client_error (end_ (status 200 (with_cors res0))) = false.
Proof. vm_compute. split; reflexivity. Qed.

(** ** Exceptions *)

Lemma try_catch_returns (w : World) (m : M Response) (h : exn -> M Response) :
  (forall e, exists r, h e = ret r) ->
  exists r, outcome w (try_catch m h) = Ok r.
Proof.
  intros Hh. unfold outcome, try_catch.
  destruct (m w) as [t [a | e]]; cbn; [by eexists |].
  destruct (Hh e) as [r ->]. cbn. by eexists.
Qed.

Lemma try_catch_thrown (w : World) (m : M Response) (h : exn -> M Response) e r :
  outcome w m = Thrown e -> h e = ret r ->
  outcome w (try_catch m h) = Ok r.
Proof.
  unfold outcome, try_catch. destruct (m w) as [t [a | e']]; cbn; [done |].
  intros [= ->] ->. done.
Qed.

(** C4 (as amended): no handler lets an exception of its [try] block
    escape; each answers 500 instead.  The message is fixed for the chat
    relay ("Something went wrong") and for the speech relays ("Voice
    failed"); for the transcription handlers it is "Transcription failed: "
    followed by the message of the exception, or by "Unknown error" when
    the exception has none. *)
Theorem exceptions_become_500 (w : World) (req : Request) (res : Response) :
  method req = "POST" ->
  converts w (Server.chat_try req res) (Server.chat req res)
    (fun _ => "Something went wrong") res
  /\ converts w (Server.speak_try req res) (Server.speak req res)
       (fun _ => "Voice failed") res
  /\ converts w (Speak.handler_try req res) (Speak.handler req res)
       (fun _ => "Voice failed") res
  /\ converts w (Transcribe.handler_try req (with_cors res)) (Transcribe.handler req res)
       transcription_failed (with_cors res)
  /\ converts w (TranscribeRestV1.handler_try req (with_cors res))
       (TranscribeRestV1.handler req res) transcription_failed (with_cors res)
  /\ converts w (TranscribeSdk.handler_try req res) (TranscribeSdk.handler req res)
       transcription_failed res.
Proof.
  intros Hpost.
  unfold Server.chat, Server.speak, Speak.handler, Transcribe.handler,
    TranscribeRestV1.handler, TranscribeSdk.handler.
  post_method Hpost. fold (with_cors res).
  repeat split; try (apply try_catch_returns; intros e; by eexists);
    intros e He; by eapply try_catch_thrown.
Qed.

Lemma exceptions_become_500_witness :
  outcome (Sample.world ∅ (Sample.always (Thrown (Error "fetch failed"))) Sample.no_sdk)
          (Speak.handler (Sample.post (Some (JObj [("text", JStr "Dia duit")]))) res0)
  = Ok (error_response 500 "Voice failed" res0).
Proof.
  destruct (exceptions_become_500
              (Sample.world ∅ (Sample.always (Thrown (Error "fetch failed"))) Sample.no_sdk)
              (Sample.post (Some (JObj [("text", JStr "Dia duit")]))) res0 eq_refl)
    as (_ & _ & (_ & H) & _).
  apply (H (Error "fetch failed")). vm_compute. reflexivity.
Defined.

(** C4 as stated fails for the transcription relay: two requests that differ
    only in the exception [fetch] rejects with get two different messages. *)
Lemma transcription_message_follows_exception :
  let req := Sample.post (Some (JObj [("audio", JStr "RGlhIGR1aXQ=")])) in
  let w1 := Sample.world Sample.azure_env
              (Sample.always (Thrown (Error "getaddrinfo ENOTFOUND"))) Sample.no_sdk in
  let w2 := Sample.world Sample.azure_env
              (Sample.always (Thrown (Error "read ECONNRESET"))) Sample.no_sdk in
  outcome w1 (Transcribe.handler req res0)
  = Ok (error_response 500 "Transcription failed: getaddrinfo ENOTFOUND" (with_cors res0))
  /\ outcome w2 (Transcribe.handler req res0)
     = Ok (error_response 500 "Transcription failed: read ECONNRESET" (with_cors res0))
  /\ outcome w1 (Transcribe.handler req res0) <> outcome w2 (Transcribe.handler req res0).
Proof. vm_compute. repeat split; congruence. Qed.

(** ** Provider failures *)

Ltac run_cases :=
  unfold_eff; cbn;
  repeat (case_match; simplify_eq/=; try done).

Ltac in_calls H :=
  repeat (destruct H as [H | H]); simplify_eq/=; unfold error_response;
  repeat match goal with
         | H1 : net ?w ?r = _, H2 : net ?w ?r = _ |- _ =>
             rewrite H1 in H2; simplify_eq/=
         | H1 : ok ?r = _, H2 : context [ok ?r] |- _ =>
             rewrite H1 in H2; simplify_eq/=
         end;
  try done; try congruence.

(** C2 (as amended): when the provider call [rq] of a request comes back
    with a status that is not a success and the handler can read the error
    payload, a REST transcription handler answers 502 with the provider's
    error text inside its message, and a speech relay answers 500 with the
    provider's parsed error payload under [error]; when the payload cannot
    be read (the text is not available, the body is not JSON), the
    transcription handler answers 500 with the message of the exception
    and the speech relay answers 500 "Voice failed", without any detail of
    the provider.  The chat relay does not look at the status: it answers
    with the value parsed from the provider's body and leaves the status of
    its response alone, and answers 500 "Something went wrong" when the
    body is not JSON. *)
Theorem provider_failure_forwarded
    (w : World) (req : Request) (res : Response) (rq : FetchReq) (resp : FetchResp) :
  method req = "POST" ->
  net w rq = Ok resp ->
  ok resp = false ->
  (forall errorText,
     In (CFetch rq) (calls w (Transcribe.handler req res)) ->
     r_text resp = Ok errorText ->
     outcome w (Transcribe.handler req res)
     = Ok (error_response 502 ("Azure transcription failed: " +:+ errorText) (with_cors res)))
  /\ (forall errorText,
     In (CFetch rq) (calls w (TranscribeRestV1.handler req res)) ->
     r_text resp = Ok errorText ->
     outcome w (TranscribeRestV1.handler req res)
     = Ok (error_response 502 ("Azure transcription failed: " +:+ errorText) (with_cors res)))
  /\ (forall err,
     In (CFetch rq) (calls w (Speak.handler req res)) ->
     r_json resp = Ok err ->
     outcome w (Speak.handler req res) = Ok (json_ (JObj [("error", err)]) (status 500 res)))
  /\ (forall err,
     In (CFetch rq) (calls w (Server.speak req res)) ->
     r_json resp = Ok err ->
     outcome w (Server.speak req res) = Ok (json_ (JObj [("error", err)]) (status 500 res)))
  /\ (forall data,
     In (CFetch rq) (calls w (Server.chat req res)) ->
     r_json resp = Ok data ->
     outcome w (Server.chat req res) = Ok (json_ data res))
  /\ (forall e,
     r_text resp = Thrown e ->
     (In (CFetch rq) (calls w (Transcribe.handler req res)) ->
      outcome w (Transcribe.handler req res)
      = Ok (error_response 500 (transcription_failed e) (with_cors res)))
     /\ (In (CFetch rq) (calls w (TranscribeRestV1.handler req res)) ->
         outcome w (TranscribeRestV1.handler req res)
         = Ok (error_response 500 (transcription_failed e) (with_cors res))))
  /\ (forall e,
     r_json resp = Thrown e ->
     (In (CFetch rq) (calls w (Speak.handler req res)) ->
      outcome w (Speak.handler req res) = Ok (error_response 500 "Voice failed" res))
     /\ (In (CFetch rq) (calls w (Server.speak req res)) ->
         outcome w (Server.speak req res) = Ok (error_response 500 "Voice failed" res))
     /\ (In (CFetch rq) (calls w (Server.chat req res)) ->
         outcome w (Server.chat req res)
         = Ok (error_response 500 "Something went wrong" res))).
Proof.
  intros Hpost Hnet Hok.
  unfold Transcribe.handler, TranscribeRestV1.handler, Speak.handler,
    Server.speak, Server.chat.
  post_method Hpost. fold (with_cors res).
  split; [| split; [| split; [| split; [| split; [| split]]]]].
  - intros errorText Hin Htext. revert Hin.
    unfold Transcribe.handler_try, Transcribe.handler_catch. run_cases;
      cbn; intros Hin; in_calls Hin.
  - intros errorText Hin Htext. revert Hin.
    unfold TranscribeRestV1.handler_try, Transcribe.handler_catch. run_cases;
      cbn; intros Hin; in_calls Hin.
  - intros err Hin Hjson. revert Hin.
    unfold Speak.handler_try, Speak.handler_catch. run_cases;
      cbn; intros Hin; in_calls Hin.
  - intros err Hin Hjson. revert Hin.
    unfold Server.speak_try, Server.speak_catch. run_cases;
      cbn; intros Hin; in_calls Hin.
  - intros data Hin Hjson. revert Hin.
    unfold Server.chat_try, Server.chat_catch. run_cases;
      cbn; intros Hin; in_calls Hin.
  - intros e Htext. unfold transcription_failed. split.
    + unfold Transcribe.handler_try, Transcribe.handler_catch. run_cases;
        cbn; intros Hin; in_calls Hin.
    + unfold TranscribeRestV1.handler_try, Transcribe.handler_catch. run_cases;
        cbn; intros Hin; in_calls Hin.
  - intros e Hjson. split; [| split].
    + unfold Speak.handler_try, Speak.handler_catch. run_cases;
        cbn; intros Hin; in_calls Hin.
    + unfold Server.speak_try, Server.speak_catch. run_cases;
        cbn; intros Hin; in_calls Hin.
    + unfold Server.chat_try, Server.chat_catch. run_cases;
        cbn; intros Hin; in_calls Hin.
Qed.

Lemma provider_failure_forwarded_witness :
  let refusal := JObj [("detail", JObj [("status", JStr "quota_exceeded")])] in
  outcome (Sample.world ∅ (Sample.always (Ok (Sample.json_response false 429 refusal))) Sample.no_sdk)
          (Speak.handler (Sample.post (Some (JObj [("text", JStr "Dia duit")]))) res0)
  = Ok (json_ (JObj [("error", refusal)]) (status 500 res0)).
Proof.
  intros refusal.
  destruct (provider_failure_forwarded
              (Sample.world ∅ (Sample.always (Ok (Sample.json_response false 429 refusal)))
                 Sample.no_sdk)
              (Sample.post (Some (JObj [("text", JStr "Dia duit")]))) res0
              (Speak.provider_request (Some (JStr "Dia duit")) None)
              (Sample.json_response false 429 refusal)
              eq_refl eq_refl eq_refl)
    as (_ & _ & H & _).
  apply H; [vm_compute; auto | reflexivity].
Defined.

(** C2 as stated fails for the chat relay: the provider refuses the call
    with status 401 and the relay answers 200. *)
Lemma chat_answers_200_on_provider_failure :
  let refusal :=
    JObj [("type", JStr "error");
          ("error", JObj [("type", JStr "authentication_error");
                          ("message", JStr "invalid x-api-key")])] in
  run (Sample.world ∅ (Sample.always (Ok (Sample.json_response false 401 refusal))) Sample.no_sdk)
      (Server.chat (Sample.post (Some (JObj [("messages", JArr [])]))) res0)
  = ([CFetch (Server.chat_request (Some (JObj [("messages", JArr [])])) None)],
     Ok (json_ refusal res0))
  /\ statusCode (json_ refusal res0) = 200
  /\ is_server_error (json_ refusal res0) = false.
Proof. vm_compute. repeat split; reflexivity. Qed.

(** ** The chat relay *)

(** C3 (as amended): for every request, the chat relay makes one call, to
    the provider's messages endpoint, with [JSON.stringify(req.body)] as
    its body: the parsed body of the request, to which the relay adds and
    from which it removes nothing.  When that call is answered, with
    whatever status, by a body that parses as JSON, the relay hands the
    parsed value as it is to [res.json] and leaves its own status as it was
    (200); when the call is rejected or the body is not JSON, it answers
    500 "Something went wrong".  This is a pass-through of parsed values,
    not of bytes. *)
Theorem chat_relays_verbatim (w : World) (req : Request) (res : Response) :
  let rq := {| url := "https://api.anthropic.com/v1/messages";
               f_method := "POST";
               f_headers := [("Content-Type", Some "application/json");
                             ("x-api-key", env w !! "ANTHROPIC_API_KEY");
                             ("anthropic-version", Some "2023-06-01")];
               f_body := JSON_stringify (body req) |} in
  calls w (Server.chat req res) = [CFetch rq]
  /\ (forall resp data,
        net w rq = Ok resp ->
        r_json resp = Ok data ->
        run w (Server.chat req res) = ([CFetch rq], Ok (json_ data res))
        /\ payload (json_ data res) = Json data
        /\ statusCode (json_ data res) = statusCode res)
  /\ (forall e,
        net w rq = Thrown e
        \/ (exists resp, net w rq = Ok resp /\ r_json resp = Thrown e) ->
        run w (Server.chat req res)
        = ([CFetch rq], Ok (error_response 500 "Something went wrong" res))).
Proof.
  intros rq.
  unfold Server.chat, Server.chat_try, Server.chat_catch, Server.chat_request,
    Server.messages_endpoint, calls, run, error_response.
  unfold_eff. cbn. fold rq.
  split; [| split].
  - destruct (net w rq) as [resp | e]; cbn; [| done].
    by destruct (r_json resp).
  - intros resp data Hnet Hjson. rewrite Hnet. cbn. rewrite Hjson. done.
  - intros e [Hnet | (resp & Hnet & Hjson)]; rewrite Hnet; cbn; [done |].
    rewrite Hjson. done.
Qed.

Lemma chat_relays_verbatim_witness :
  let reply := JObj [("content", JArr [JObj [("type", JStr "text"); ("text", JStr "Dia duit!")]])] in
  let payload := JObj [("model", JStr "claude-sonnet-4-20250514"); ("messages", JArr [])] in
  run (Sample.world {[ "ANTHROPIC_API_KEY" := "sk-0000" ]}
         (Sample.always (Ok (Sample.json_response true 200 reply))) Sample.no_sdk)
      (Server.chat (Sample.post (Some payload)) res0)
  = ([CFetch (Server.chat_request (Some payload) (Some "sk-0000"))], Ok (json_ reply res0)).
Proof.
  intros reply payload.
  destruct (chat_relays_verbatim
              (Sample.world {[ "ANTHROPIC_API_KEY" := "sk-0000" ]}
                 (Sample.always (Ok (Sample.json_response true 200 reply))) Sample.no_sdk)
              (Sample.post (Some payload)) res0)
    as (_ & H & _).
  destruct (H (Sample.json_response true 200 reply) reply eq_refl eq_refl) as [H1 _].
  vm_compute in H1 |- *. exact H1.
Defined.

(** C3 as stated fails: the provider answers 529 and the relay passes the
    body on with status 200, so the provider's error status is not
    forwarded. *)
Lemma chat_drops_provider_status :
  let overloaded :=
    JObj [("type", JStr "error");
          ("error", JObj [("type", JStr "overloaded_error"); ("message", JStr "Overloaded")])] in
  let w := Sample.world {[ "ANTHROPIC_API_KEY" := "sk-0000" ]}
             (Sample.always (Ok (Sample.json_response false 529 overloaded))) Sample.no_sdk in
  outcome w (Server.chat (Sample.post (Some (JObj [("messages", JArr [])]))) res0)
  = Ok {| statusCode := 200; headers := []; payload := Json overloaded |}
  /\ net w (Server.chat_request (Some (JObj [("messages", JArr [])])) (Some "sk-0000"))
     = Ok (Sample.json_response false 529 overloaded)
  /\ r_status (Sample.json_response false 529 overloaded) = 529.
Proof. vm_compute. repeat split; reflexivity. Qed.

(** ** The speech relay *)





(** ** The transcription relay, from the audio to the transcript *)

(** For a result of the documented shape the transcript is the text of the
    first combined phrase and the language is the locale of the first
    phrase. *)
Lemma first_text_locale (t l : string) (cs ps : list json) (rest : list (string * json)) :
  t <> "" -> l <> "" ->
  let result :=
    JObj (("combinedPhrases", JArr (JObj [("text", JStr t)] :: cs))
          :: ("phrases", JArr (JObj [("text", JStr t); ("locale", JStr l)] :: ps))
          :: rest) in
  first_text result = JStr t /\ first_locale result = JStr l.
Proof.
  intros Ht Hl. cbn. unfold first_text, first_locale. cbn.
  apply String.eqb_neq in Ht, Hl. rewrite Ht, Hl. done.
Qed.

(** C1 (as amended): when both Azure variables are set, a REST
    transcription handler that receives a POST whose JSON body has a
    non-empty string under [audio] decodes it from base64 and sends the
    bytes to the transcription endpoint of the configured region as a
    multipart form: the part [audio] with the bytes, and the part
    [definition] with the JSON that names the locales en-IE and ga-IE.  When
    the provider answers with a success whose JSON body is not null, the
    handler answers 200 with exactly [{ text, language }]: the text of the
    first combined phrase, or the empty string, and the locale of the first
    phrase, or the empty string. *)
Theorem transcription_relays_audio
    (w : World) (req : Request) (res : Response) (fields : list (string * json))
    (s : string) (resp : FetchResp) (result : json) :
  let audio := base64_decode w s in
  let rq := azure_request w (Transcribe.form_of audio)
              (BodyFormBuffer (Transcribe.form_of audio)) in
  let rq1 := azure_request w (TranscribeRestV1.form_of audio)
               (BodyForm (TranscribeRestV1.form_of audio)) in
  let answer := json_ (JObj [("text", first_text result); ("language", first_locale result)])
                      (status 200 (with_cors res)) in
  method req = "POST" ->
  configured w = true ->
  body req = Some (JObj fields) ->
  lookup_field "audio" fields = Some (JStr s) ->
  s <> "" ->
  form_stream_error w (Transcribe.form_of audio) = None ->
  ok resp = true ->
  r_json resp = Ok result ->
  result <> JNull ->
  (net w rq = Ok resp -> run w (Transcribe.handler req res) = ([CFetch rq], Ok answer))
  /\ (net w rq1 = Ok resp ->
      run w (TranscribeRestV1.handler req res) = ([CFetch rq1], Ok answer))
  /\ calls w (Transcribe.handler req res) = [CFetch rq]
  /\ calls w (TranscribeRestV1.handler req res) = [CFetch rq1]
  /\ Transcribe.form_of audio
     = [Part "audio" (PBuffer audio) (Some "recording.m4a") (Some "audio/mp4");
        Part "definition"
          (PJson (JObj [("locales", JArr [JStr "en-IE"]);
                        ("languageIdentification",
                         JObj [("candidateLocales", JArr [JStr "en-IE"; JStr "ga-IE"])])]))
          None None]
  /\ TranscribeRestV1.form_of audio
     = [Part "audio" (PBuffer audio) (Some "recording.m4a") (Some "audio/mp4");
        Part "definition" (PJson (JObj [("locales", JArr [JStr "ga-IE"; JStr "en-IE"])]))
          None None].
Proof.
  intros audio rq rq1 answer Hpost Hc%configured_split Hbody Haudio Hs Hform Hok Hjson Hnull.
  apply String.eqb_neq in Hs.
  unfold Transcribe.handler, TranscribeRestV1.handler,
    Transcribe.handler_try, TranscribeRestV1.handler_try, Transcribe.handler_catch.
  post_method Hpost. fold (with_cors res).
  unfold_eff. rewrite Hc, Hbody. cbn. rewrite Haudio. cbn. rewrite Hs. cbn.
  fold audio. rewrite Hform. cbn. fold (azure_request w (Transcribe.form_of audio)
    (BodyFormBuffer (Transcribe.form_of audio))).
  fold (azure_request w (TranscribeRestV1.form_of audio)
    (BodyForm (TranscribeRestV1.form_of audio))). fold rq rq1.
  repeat split.
  - intros ->. rewrite Hok. cbn. rewrite Hjson. subst answer.
    destruct result; done.
  - intros ->. rewrite Hok. cbn. rewrite Hjson. subst answer.
    destruct result; done.
  - repeat (case_match; simplify_eq/=); done.
  - repeat (case_match; simplify_eq/=); done.
Qed.

Lemma transcription_relays_audio_witness :
  let result :=
    JObj [("combinedPhrases", JArr [JObj [("text", JStr "Dia duit")]]);
          ("phrases", JArr [JObj [("text", JStr "Dia duit"); ("locale", JStr "ga-IE")]])] in
  let w := Sample.world Sample.azure_env
             (Sample.always (Ok (Sample.json_response true 200 result))) Sample.no_sdk in
  let audio := String.list_byte_of_string "Dia duit" in
  run w (Transcribe.handler (Sample.post (Some (JObj [("audio", JStr "RGlhIGR1aXQ=")]))) res0)
  = ([CFetch (azure_request w (Transcribe.form_of audio)
                (BodyFormBuffer (Transcribe.form_of audio)))],
     Ok (json_ (JObj [("text", JStr "Dia duit"); ("language", JStr "ga-IE")])
               (status 200 (with_cors res0)))).
Proof.
  intros result w audio.
  destruct (transcription_relays_audio w
              (Sample.post (Some (JObj [("audio", JStr "RGlhIGR1aXQ=")]))) res0
              [("audio", JStr "RGlhIGR1aXQ=")] "RGlhIGR1aXQ="
              (Sample.json_response true 200 result) result
              eq_refl eq_refl eq_refl eq_refl ltac:(discriminate) eq_refl
              eq_refl eq_refl ltac:(discriminate))
    as [H _].
  specialize (H eq_refl). vm_compute in H |- *. exact H.
Defined.

(** C1 as stated fails: with no Azure variables in the environment the
    handler neither decodes nor submits the audio, and answers 500; and an
    empty string under [audio] is answered 400, again with no submission. *)
Lemma transcription_not_submitted :
  let w0 := Sample.world ∅
              (Sample.always (Ok (Sample.json_response true 200 (JObj [])))) Sample.no_sdk in
  let w1 := Sample.world Sample.azure_env
              (Sample.always (Ok (Sample.json_response true 200 (JObj [])))) Sample.no_sdk in
  run w0 (Transcribe.handler (Sample.post (Some (JObj [("audio", JStr "RGlhIGR1aXQ=")]))) res0)
  = ([], Ok (error_response 500 Transcribe.not_configured (with_cors res0)))
  /\ run w1 (Transcribe.handler (Sample.post (Some (JObj [("audio", JStr "")]))) res0)
     = ([], Ok (error_response 400 Transcribe.no_audio (with_cors res0))).
Proof. vm_compute. split; reflexivity. Qed.

Example decode_dia_duit :
  Sample.decode "RGlhIGR1aXQ=" = String.list_byte_of_string "Dia duit".
Proof. reflexivity. Qed.

(** ** The browser client *)

Section deserialization.
Variable JSON_parse : string -> result json.

Lemma from_open_spec (s t : string) :
  App.from_open s = Some t ->
  exists pre t', s = pre +:+ t /\ t = String "{" t' /\ has_char "{" pre = false.
Proof.
  induction s as [| c s IH]; cbn; [done |].
  destruct (Ascii.eqb c "{") eqn:Hc.
  - intros [= <-]. apply Ascii.eqb_eq in Hc as ->.
    by exists "", s.
  - intros (pre & t' & -> & -> & Hpre)%IH.
    exists (String c pre), t'. cbn.
    rewrite Hc, Hpre. done.
Qed.

Lemma upto_close_none (t : string) :
  App.upto_close t = None -> has_char "}" t = false.
Proof.
  induction t as [| c t IH]; cbn; [done |].
  destruct (App.upto_close t); [done |].
  destruct (Ascii.eqb c "}"); [done |]. intros _. by apply IH.
Qed.

Lemma upto_close_spec (t m : string) :
  App.upto_close t = Some m ->
  exists m' post, m = m' +:+ "}" /\ t = m +:+ post /\ has_char "}" post = false.
Proof.
  revert m. induction t as [| c t IH]; cbn; [done |]. intros m.
  destruct (App.upto_close t) as [p |] eqn:Hp.
  - intros [= <-]. destruct (IH p eq_refl) as (m' & post & -> & Ht & Hpost).
    exists (String c m'), post. cbn. by rewrite Ht at 1.
  - destruct (Ascii.eqb c "}") eqn:Hc; [| done].
    intros [= <-]. apply Ascii.eqb_eq in Hc as ->.
    exists "", t. cbn. repeat split. apply upto_close_none. exact Hp.
Qed.

Lemma append_cons (c : ascii) (a b : string) :
  String c a +:+ b = String c (a +:+ b).
Proof. reflexivity. Qed.

Lemma from_open_app (pre x : string) :
  exists q, App.from_open (pre +:+ String "{" x) = Some (q +:+ String "{" x).
Proof.
  induction pre as [| c pre [q IH]].
  - by exists "".
  - rewrite append_cons. cbn. destruct (Ascii.eqb c "{").
    + by exists (String c pre).
    + by exists q.
Qed.

Lemma upto_close_app (a b : string) :
  App.upto_close (a +:+ String "}" b) <> None.
Proof.
  induction a as [| c a IH].
  - change ("" +:+ String "}" b) with (String "}" b). cbn.
    destruct (App.upto_close b); done.
  - rewrite append_cons. cbn.
    destruct (App.upto_close (a +:+ String "}" b)); done.
Qed.

Lemma string_app_assoc (a b c : string) : (a +:+ b) +:+ c = a +:+ b +:+ c.
Proof.
  induction a as [| x a IH]; [done |]. by rewrite !append_cons, IH.
Qed.

(** The pattern matches exactly when the text has an opening brace with
    a closing brace somewhere after it, and then the match runs from the
    first opening brace to the last closing brace. *)
Lemma brace_region_some (raw m : string) :
  App.brace_region raw = Some m ->
  exists pre inner post,
    raw = pre +:+ m +:+ post /\ m = "{" +:+ inner +:+ "}"
    /\ has_char "{" pre = false /\ has_char "}" post = false.
Proof.
  unfold App.brace_region.
  destruct (App.from_open raw) as [t |] eqn:Ht; [| done].
  apply from_open_spec in Ht as (pre & t' & -> & -> & Hpre).
  intros (m' & post & -> & Ht & Hpost)%upto_close_spec.
  destruct m' as [| c inner].
  - done.
  - rewrite append_cons in Ht. injection Ht as <- Ht.
    exists pre, inner, post. by rewrite Ht.
Qed.

Lemma brace_region_none (raw : string) :
  App.brace_region raw = None ->
  forall pre inner post, raw <> pre +:+ "{" +:+ inner +:+ "}" +:+ post.
Proof.
  unfold App.brace_region. intros H pre inner post ->.
  change ("{" +:+ inner +:+ "}" +:+ post)
    with (String "{" (inner +:+ String "}" post)) in H.
  destruct (from_open_app pre (inner +:+ String "}" post)) as [q Hq].
  rewrite Hq in H.
  change (String "{" (inner +:+ String "}" post))
    with (String "{" inner +:+ String "}" post) in H.
  rewrite <- string_app_assoc in H. by apply upto_close_app in H.
Qed.

(** C9: the chat turn is read off the raw text by one pattern match and
    one parse: the text handed to [JSON.parse] is the region from the
    first opening brace to the last closing brace, or the whole text when
    there is no such region; when the parse fails the turn is the raw
    text as [message] with empty [words] and [suggestions]; the
    deserialization returns a turn for every reply, it never throws, and
    neither does [callClaude] around it. *)
Theorem deserialize_best_effort (raw : string) :
  let candidate := match App.brace_region raw with Some m => m | None => raw end in
  (forall reply : json, exists parsed, App.deserialize JSON_parse reply = Ok parsed)
  /\ (forall data st, exists st', App.callClaude_settle JSON_parse data st = (Ok tt, st'))
  /\ (forall parsed, JSON_parse candidate = Ok parsed ->
      App.deserialize JSON_parse (JStr raw) = Ok parsed)
  /\ (forall e, JSON_parse candidate = Thrown e ->
      App.deserialize JSON_parse (JStr raw)
      = Ok (JObj [("message", JStr raw); ("words", JArr []); ("suggestions", JArr [])]))
  /\ (forall m, App.brace_region raw = Some m ->
      exists pre inner post,
        raw = pre +:+ m +:+ post /\ m = "{" +:+ inner +:+ "}"
        /\ has_char "{" pre = false /\ has_char "}" post = false)
  /\ (App.brace_region raw = None ->
      forall pre inner post, raw <> pre +:+ "{" +:+ inner +:+ "}" +:+ post).
Proof.
  intros candidate. repeat split.
  - intros reply. unfold App.deserialize.
    destruct (App.deserialize_try JSON_parse reply); by eexists.
  - intros data st. unfold App.callClaude_settle, App.try_catch_finally.
    destruct (App.callClaude_try JSON_parse data st) as [[[] | e] st']; by eexists.
  - intros parsed Hp. unfold App.deserialize, App.deserialize_try. cbn.
    subst candidate. destruct (App.brace_region raw); by rewrite Hp.
  - intros e He. unfold App.deserialize, App.deserialize_try. cbn.
    subst candidate. destruct (App.brace_region raw); by rewrite He.
  - apply brace_region_some.
  - apply brace_region_none.
Qed.

End deserialization.

Example deserialize_region :
  App.deserialize Sample.parse (JStr "Seo duit: {} sin e") = Ok (JObj [])
  /\ App.deserialize Sample.parse (JStr "Dia duit!")
     = Ok (JObj [("message", JStr "Dia duit!"); ("words", JArr []); ("suggestions", JArr [])])
  /\ App.deserialize Sample.parse (JNum 5 0)
     = Ok (JObj [("message", JNum 5 0); ("words", JArr []); ("suggestions", JArr [])]).
Proof. repeat split. Qed.

Section conversation.
Variable SYSTEM_PROMPT : string.
Variable JSON_parse : string -> result json.

Abbreviation send := (App.send SYSTEM_PROMPT).
Abbreviation callClaude_begin := (App.callClaude_begin SYSTEM_PROMPT).
Abbreviation callClaude_resume := (App.callClaude_resume JSON_parse).
Abbreviation reachable := (App.reachable SYSTEM_PROMPT JSON_parse).

(** [send] does nothing while a chat call is pending. *)
Lemma send_while_loading (text : option string) (st : App.State) :
  App.loading st = true -> send text st = st.
Proof.
  intros H. unfold App.send. rewrite H, orb_true_r. reflexivity.
Qed.

Lemma callClaude_begin_spec (userMsg : option string) (st : App.State) :
  App.loading (callClaude_begin userMsg st) = true
  /\ App.started (callClaude_begin userMsg st) = App.started st
  /\ exists b, App.pending (callClaude_begin userMsg st) = App.pending st ++ [b].
Proof.
  destruct st. unfold App.callClaude_begin. cbn.
  destruct userMsg as [u |]; cbn; [destruct (String.eqb u ""); cbn |];
    repeat split; by eexists.
Qed.

(** The continuation of [callClaude] touches neither [started] nor the
    pending calls. *)
Lemma callClaude_try_frame (data : result json) (st st' : App.State) (r : result unit) :
  App.callClaude_try JSON_parse data st = (r, st') ->
  App.pending st' = App.pending st /\ App.started st' = App.started st.
Proof.
  destruct st. unfold App.callClaude_try, App.cbind, App.of_result, App.cmember,
    App.update, App.cret, App.cthrow.
  intros H. repeat (case_match; simplify_eq/=); done.
Qed.

Lemma callClaude_resume_spec (data : result json) (st : App.State) :
  App.loading (callClaude_resume data st) = false
  /\ App.started (callClaude_resume data st) = App.started st
  /\ App.pending (callClaude_resume data st) = tl (App.pending st).
Proof.
  unfold App.callClaude_resume, App.callClaude_settle, App.try_catch_finally.
  destruct (App.callClaude_try JSON_parse data (App.set_pending (tl (App.pending st)) st))
    as [[[] | e] st'] eqn:Htry;
    apply callClaude_try_frame in Htry as [Hp Hs];
    destruct st, st'; cbn in *; subst; done.
Qed.

Lemma one_turn_send (text : option string) (st : App.State) :
  App.started st = true -> one_turn st -> one_turn (send text st).
Proof.
  intros Hst Hinv. destruct (App.loading st) eqn:Hl.
  - by rewrite send_while_loading.
  - destruct Hinv as [[_ Hp] | [Hl' _]]; [| congruence].
    unfold App.send. rewrite Hl, orb_false_r.
    destruct (negb _); [left; done |].
    right.
    match goal with
    | |- context [App.callClaude_begin _ ?u ?s] =>
        destruct (callClaude_begin_spec u s) as (H1 & H2 & b & H3)
    end.
    rewrite H1, H2, H3. destruct st; cbn in *; subst. eauto.
Qed.

Lemma one_turn_handle (ev : App.event) (st st' : App.State) :
  one_turn st -> App.handle SYSTEM_PROMPT JSON_parse ev st = Some st' -> one_turn st'.
Proof.
  intros Hinv. unfold App.handle, App.render.
  destruct ev as [s | | | s | text | data | b].
  - destruct (App.authenticated st); cbn; [by destruct (App.started st) |].
    intros [= <-]. by destruct st.
  - destruct (App.authenticated st); cbn; [by destruct (App.started st) |].
    destruct (String.eqb _ _); intros [= <-]; [by destruct st | done].
  - destruct (App.authenticated st) eqn:Ha; cbn; [| done].
    destruct (App.started st) eqn:Hs; cbn; [done |].
    intros [= <-].
    destruct Hinv as [[Hl Hp] | [_ [Hs' _]]]; [| congruence].
    destruct (callClaude_begin_spec None (App.setStarted true st)) as (H1 & H2 & b & H3).
    right. rewrite H1, H2, H3. destruct st; cbn in *; subst. eauto.
  - destruct (App.authenticated st); cbn; [| done].
    destruct (App.started st); cbn; [| done].
    intros [= <-]. by destruct st.
  - destruct (App.authenticated st); cbn; [| done].
    destruct (App.started st) eqn:Hs; cbn; [| done].
    intros [= <-]. by apply one_turn_send.
  - assert (Hres : match App.pending st with
                   | [] => None
                   | _ :: _ => Some (callClaude_resume data st)
                   end = Some st' -> one_turn st').
    { destruct (App.pending st) as [| b l] eqn:Hp; [done |]. intros [= <-].
      destruct (callClaude_resume_spec data st) as (H1 & H2 & H3).
      left. rewrite H1, H3, Hp.
      destruct Hinv as [[_ Hp'] | (_ & _ & b' & Hp')]; [congruence |].
      rewrite Hp in Hp'. by injection Hp' as _ ->. }
    destruct (App.authenticated st); cbn; [destruct (App.started st); cbn |]; done.
  - destruct (App.authenticated st); cbn; [| done].
    destruct (App.started st); cbn; [| done].
    intros [= <-]. by destruct st.
Qed.

Lemma reachable_one_turn (st : App.State) : reachable st -> one_turn st.
Proof.
  induction 1 as [| st ev st' _ IH Hstep].
  - by left.
  - by eapply one_turn_handle.
Qed.

(** C8: in every state of a session at most one chat call is pending,
    [loading] is set exactly while one is, and while it is set [send]
    leaves the state as it is: no message is added, the input is kept, no
    chat call is started. *)
Theorem one_turn_at_a_time (st : App.State) :
  reachable st ->
  (length (App.pending st) <= 1)%nat
  /\ (App.loading st = true <-> App.pending st <> [])
  /\ (forall text, App.loading st = true ->
      send text st = st
      /\ App.messages (send text st) = App.messages st
      /\ App.input (send text st) = App.input st
      /\ App.pending (send text st) = App.pending st).
Proof.
  intros Hinv%reachable_one_turn. repeat split.
  - destruct Hinv as [[_ ->] | (_ & _ & b & ->)]; cbn; lia.
  - destruct Hinv as [[Hl _] | (_ & _ & b & ->)]; [congruence | done].
  - destruct Hinv as [[_ ->] | [Hl _]]; done.
  - by apply send_while_loading.
  - by rewrite send_while_loading.
  - by rewrite send_while_loading.
  - by rewrite send_while_loading.
Qed.

End conversation.

(** The session that unlocks the application and starts the lesson. *)
Lemma started_session_reachable :
  App.reachable Sample.prompt Sample.parse
    (App.callClaude_begin Sample.prompt None
       (App.setStarted true
          (App.setAuthenticated true (App.setPassword "luke123" App.init)))).
Proof.
  eapply App.reachable_step with (ev := App.Start);
    [eapply App.reachable_step with (ev := App.Unlock);
      [eapply App.reachable_step with (ev := App.TypePassword "luke123");
        [apply App.reachable_init | reflexivity]
      | reflexivity]
    | reflexivity].
Qed.

Lemma one_turn_at_a_time_witness :
  let st := App.callClaude_begin Sample.prompt None
              (App.setStarted true
                 (App.setAuthenticated true (App.setPassword "luke123" App.init))) in
  App.loading st = true
  /\ length (App.pending st) = 1%nat
  /\ App.send Sample.prompt (Some "Dia duit") st = st.
Proof.
  intros st.
  destruct (one_turn_at_a_time Sample.prompt Sample.parse st started_session_reachable)
    as (_ & _ & H).
  split; [reflexivity | split; [reflexivity |]].
  apply (H (Some "Dia duit")). reflexivity.
Defined.

(** A whole turn: the reply settles the pending call, and only then does
    [send] start the next one. *)
(** A reply whose text parses to [null] is no turn: reading its message
    throws, and [callClaude] shows its error instead of a bubble. *)
Example reply_null_sets_error :
  let st0 := App.callClaude_begin Sample.prompt None
               (App.setStarted true
                  (App.setAuthenticated true (App.setPassword "luke123" App.init))) in
  let reply := JObj [("content", JArr [JObj [("type", JStr "text"); ("text", JStr "null")]])] in
  let st1 := App.callClaude_resume Sample.parse (Ok reply) st0 in
  App.deserialize Sample.parse (JStr "null") = Ok JNull
  /\ App.messages st1 = []
  /\ App.error st1 = Some "Couldn't connect to Finbar. Please try again."
  /\ App.loading st1 = false.
Proof. vm_compute. repeat split. Qed.

Example session_turn :
  let st0 := App.callClaude_begin Sample.prompt None
               (App.setStarted true
                  (App.setAuthenticated true (App.setPassword "luke123" App.init))) in
  let reply := JObj [("content", JArr [JObj [("type", JStr "text"); ("text", JStr "Dia duit!")]])] in
  let st1 := App.callClaude_resume Sample.parse (Ok reply) st0 in
  App.send Sample.prompt (Some "Conas ata tu?") st0 = st0
  /\ App.loading st1 = false /\ App.pending st1 = []
  /\ App.messages st1 = [App.CoachMsg (Some (JStr "Dia duit!")) (JArr [])]
  /\ App.messages (App.send Sample.prompt (Some "Conas ata tu?") st1)
     = [App.CoachMsg (Some (JStr "Dia duit!")) (JArr []); App.UserMsg "Conas ata tu?"]
  /\ length (App.pending (App.send Sample.prompt (Some "Conas ata tu?") st1)) = 1%nat.
Proof. vm_compute. repeat split. Qed.

(** The transcription relays on a refusal of the provider, and the SDK
    variant on a recognised and on a cancelled utterance. *)
Example transcription_refused :
  run (Sample.world Sample.azure_env
         (Sample.always (Ok (Sample.text_response false 401 "Access denied"))) Sample.no_sdk)
      (TranscribeRestV1.handler (Sample.post (Some (JObj [("audio", JStr "RGlhIGR1aXQ=")]))) res0)
  = ([CFetch (azure_request
                (Sample.world Sample.azure_env
                   (Sample.always (Ok (Sample.text_response false 401 "Access denied")))
                   Sample.no_sdk)
                (TranscribeRestV1.form_of (String.list_byte_of_string "Dia duit"))
                (BodyForm (TranscribeRestV1.form_of (String.list_byte_of_string "Dia duit"))))],
     Ok (error_response 502 "Azure transcription failed: Access denied" (with_cors res0))).
Proof. vm_compute. reflexivity. Qed.

Example sdk_recognised :
  let heard := {| reason := RecognizedSpeech; text := Some "Dia duit";
                  language := Some "ga-IE"; errorDetails := None |} in
  outcome (Sample.world Sample.azure_env (Sample.always (Thrown (Error "unreachable")))
             (fun _ => SdkResult heard))
          (TranscribeSdk.handler (Sample.post (Some (JObj [("audio", JStr "RGlhIGR1aXQ=")]))) res0)
  = Ok (json_ (JObj [("text", JStr "Dia duit"); ("language", JStr "ga-IE")]) (status 200 res0)).
Proof. vm_compute. reflexivity. Qed.

Example sdk_cancelled :
  let cancelled := {| reason := Canceled; text := None; language := None;
                      errorDetails := Some "Connection was closed by the remote host." |} in
  run (Sample.world Sample.azure_env (Sample.always (Thrown (Error "unreachable")))
         (fun _ => SdkResult cancelled))
      (TranscribeSdk.handler (Sample.post (Some (JObj [("audio", JStr "RGlhIGR1aXQ=")]))) res0)
  = ([CRecognize {| sdk_key := Some "0123456789abcdef"; sdk_region := Some "northeurope";
                    sdk_profanity := Raw; sdk_languages := ["ga-IE"; "en-IE"];
                    sdk_audio := String.list_byte_of_string "Dia duit" |}],
     Ok (error_response 500
           "Transcription failed: Connection was closed by the remote host." res0)).
Proof. vm_compute. reflexivity. Qed.

(** * More properties of the handlers *)

(** X1: no handler contacts a provider more than once for a request,
    whatever the request and whatever the providers answer: there is no
    retry and no second call. *)
Theorem at_most_one_provider_call (w : World) (req : Request) (res : Response) :
  (length (calls w (Transcribe.handler req res)) <= 1)%nat
  /\ (length (calls w (TranscribeRestV1.handler req res)) <= 1)%nat
  /\ (length (calls w (TranscribeSdk.handler req res)) <= 1)%nat
  /\ (length (calls w (Speak.handler req res)) <= 1)%nat
  /\ (length (calls w (Server.chat req res)) <= 1)%nat
  /\ (length (calls w (Server.speak req res)) <= 1)%nat.
Proof.
  unfold Transcribe.handler, TranscribeRestV1.handler, TranscribeSdk.handler,
    Speak.handler, Server.chat, Server.speak,
    Transcribe.handler_try, TranscribeRestV1.handler_try, TranscribeSdk.handler_try,
    Speak.handler_try, Server.chat_try, Server.speak_try,
    Transcribe.handler_catch, Speak.handler_catch, Server.chat_catch,
    Server.speak_catch, TranscribeSdk.transcript_of.
  repeat split; run_cases; cbn; lia.
Qed.

(** X2: every response of a REST transcription handler carries the three
    CORS headers, added after the headers the response had: the preflight
    answer, the method and configuration errors, the provider's failure and
    the transcript alike. *)
Theorem rest_transcription_always_cors (w : World) (req : Request) (res : Response) :
  (exists r, outcome w (Transcribe.handler req res) = Ok r
             /\ headers r = headers res
                            ++ [("Access-Control-Allow-Origin", "*");
                                ("Access-Control-Allow-Methods", "POST, OPTIONS");
                                ("Access-Control-Allow-Headers", "Content-Type")])
  /\ (exists r, outcome w (TranscribeRestV1.handler req res) = Ok r
                /\ headers r = headers res
                               ++ [("Access-Control-Allow-Origin", "*");
                                   ("Access-Control-Allow-Methods", "POST, OPTIONS");
                                   ("Access-Control-Allow-Headers", "Content-Type")]).
Proof.
  unfold Transcribe.handler, TranscribeRestV1.handler,
    Transcribe.handler_try, TranscribeRestV1.handler_try, Transcribe.handler_catch.
  split; run_cases; eexists; (split; [reflexivity |]); cbn;
    rewrite <- !app_assoc; reflexivity.
Qed.
Ltac status_case :=
  unfold status_tells; cbn;
  repeat match goal with
         | H : negb _ = true |- _ => apply negb_true_iff in H
         | H : negb _ = false |- _ => apply negb_false_iff in H
         | H : String.eqb _ _ = true |- _ => apply String.eqb_eq in H
         end;
  repeat split; try (intros; discriminate); try (intros [? | ?]; discriminate);
  try (intros _; right; do 2 eexists; repeat split; eauto; fail);
  try (intros _; do 2 eexists; repeat split; eauto; fail);
  try (intros _; left; assumption);
  try (cbn; tauto); auto 10.

(** X3: the status of a REST transcription response tells what happened:
    it is one of 200, 400, 405, 500 and 502; it is 502 only when the
    provider was called once and answered with a failure; it is 200 only
    for a preflight or when the provider was called once and answered with
    a success; and with 400 or 405 no provider was called. *)
Theorem transcription_status_meaning
    (w : World) (req : Request) (res r r1 : Response) (t t1 : list call) :
  run w (Transcribe.handler req res) = (t, Ok r) ->
  run w (TranscribeRestV1.handler req res) = (t1, Ok r1) ->
  status_tells w req t r /\ status_tells w req t1 r1.
Proof.
  intros H H1. split.
  - clear H1. revert H.
    unfold Transcribe.handler, Transcribe.handler_try, Transcribe.handler_catch.
    run_cases; intros [= <- <-]; status_case.
  - clear H. revert H1.
    unfold TranscribeRestV1.handler, TranscribeRestV1.handler_try, Transcribe.handler_catch.
    run_cases; intros [= <- <-]; status_case.
Qed.
Lemma or_else_str_defined (x : option string) (d d' : string) :
  d <> "" -> or_else_str (Some (or_else_str x d)) d' = or_else_str x d.
Proof.
  intros Hd. unfold or_else_str at 1. cbn.
  destruct (String.eqb (or_else_str x d) "") eqn:He; [| done].
  apply String.eqb_eq in He. unfold or_else_str in He.
  destruct x as [s |]; cbn in He; [| done].
  destruct (String.eqb s "") eqn:Hs; cbn in He; [done |].
  apply String.eqb_neq in Hs. done.
Qed.

(** X4: what the SDK transcription handler answers to a POST with a base64
    audio is fixed by what the speech SDK does with the one request the
    handler builds (the decoded audio, Irish and English, profanity left
    raw).  When a call of the SDK throws before the recognition starts, as
    with a package whose [SpeechRecognizer] has no [fromConfig], the
    handler answers 500 with the message of the exception and no
    recognition is run.  Otherwise one recognition is run: recognised
    speech gives 200 with the text and the detected language, or
    "unknown"; no match and an unexpected reason give 200 with an empty
    text and language; a cancellation gives 500 with its details, or
    "Recognition canceled"; an error of the recognizer gives 500 with that
    error.  So the handler answers 200 only when the SDK delivered a result
    that is no cancellation. *)
Theorem sdk_transcription_outcomes
    (w : World) (req : Request) (res : Response) (fields : list (string * json))
    (s : string) :
  let rq := {| sdk_key := env w !! "AZURE_SPEECH_KEY";
               sdk_region := env w !! "AZURE_SPEECH_REGION";
               sdk_profanity := Raw;
               sdk_languages := ["ga-IE"; "en-IE"];
               sdk_audio := base64_decode w s |} in
  let answers r := run w (TranscribeSdk.handler req res) = ([CRecognize rq], Ok r) in
  let silence := json_ (JObj [("text", JStr ""); ("language", JStr "")]) (status 200 res) in
  method req = "POST" ->
  configured w = true ->
  body req = Some (JObj fields) ->
  lookup_field "audio" fields = Some (JStr s) ->
  s <> "" ->
  (forall e, speech_sdk w rq = SdkThrows e ->
     run w (TranscribeSdk.handler req res)
     = ([], Ok (error_response 500 (transcription_failed e) res)))
  /\ (forall r, speech_sdk w rq = SdkResult r -> reason r = RecognizedSpeech ->
     answers (json_ (JObj (literal [("text", JStr <$> text r);
                                    ("language",
                                     Some (JStr (or_else_str (language r) "unknown")))]))
                    (status 200 res)))
  /\ (forall r, speech_sdk w rq = SdkResult r ->
      reason r = NoMatch \/ reason r = OtherReason -> answers silence)
  /\ (forall r, speech_sdk w rq = SdkResult r -> reason r = Canceled ->
      answers (error_response 500
                 ("Transcription failed: "
                  +:+ or_else_str (errorDetails r) "Recognition canceled") res))
  /\ (forall error, speech_sdk w rq = SdkError error ->
      answers (error_response 500
                 ("Transcription failed: " +:+ or_else_str (Some error) "Unknown error")
                 res))
  /\ (forall r, outcome w (TranscribeSdk.handler req res) = Ok r ->
      statusCode r = 200 ->
      exists result, speech_sdk w rq = SdkResult result /\ reason result <> Canceled).
Proof.
  intros rq answers silence Hpost Hc%configured_split Hbody Haudio Hs.
  apply String.eqb_neq in Hs. subst answers. cbn beta.
  unfold TranscribeSdk.handler, TranscribeSdk.handler_try, Transcribe.handler_catch,
    TranscribeSdk.transcript_of, transcription_failed, outcome, run.
  post_method Hpost. unfold_eff. rewrite Hc, Hbody. cbn. rewrite Haudio. cbn.
  rewrite Hs. cbn. fold rq.
  split; [| split; [| split; [| split; [| split]]]].
  - intros e ->. done.
  - intros r -> ->. done.
  - intros r -> [-> | ->]; done.
  - intros r -> ->. unfold error_response, Error. cbn [message].
    rewrite or_else_str_defined; done.
  - intros error ->. done.
  - intros r.
    destruct (speech_sdk w rq) as [result | error | e]; cbn.
    + destruct (reason result) eqn:Hr; cbn; intros [= <-]; cbn; try done;
        intros _; exists result; split; congruence.
    + intros [= <-]. done.
    + intros [= <-]. done.
Qed.

Lemma sdk_transcription_outcomes_witness :
  run (Sample.world Sample.azure_env (Sample.always (Thrown (Error "unreachable")))
         Sample.sdk_without_fromConfig)
      (TranscribeSdk.handler (Sample.post (Some (JObj [("audio", JStr "RGlhIGR1aXQ=")]))) res0)
  = ([], Ok (error_response 500
               "Transcription failed: sdk.SpeechRecognizer.fromConfig is not a function"
               res0)).
Proof.
  destruct (sdk_transcription_outcomes
              (Sample.world Sample.azure_env (Sample.always (Thrown (Error "unreachable")))
                 Sample.sdk_without_fromConfig)
              (Sample.post (Some (JObj [("audio", JStr "RGlhIGR1aXQ=")]))) res0
              [("audio", JStr "RGlhIGR1aXQ=")] "RGlhIGR1aXQ="
              eq_refl eq_refl eq_refl eq_refl ltac:(discriminate))
    as (H & _).
  specialize (H (Error "sdk.SpeechRecognizer.fromConfig is not a function") eq_refl).
  vm_compute in H |- *. exact H.
Defined.

(** X5: an [audio] that is truthy but that [Buffer.from] refuses (a number,
    say) is answered 500 by every transcription handler, with the message
    of the refusal after "Transcription failed: ", and no provider is
    contacted. *)
Theorem undecodable_audio_rejected
    (w : World) (req : Request) (res : Response) (e : exn) :
  method req = "POST" ->
  configured w = true ->
  truthy (audio_of req) = true ->
  (forall s, audio_of req <> Some (JStr s)) ->
  Buffer_from_other w (audio_of req) = Thrown e ->
  run w (Transcribe.handler req res)
  = ([], Ok (error_response 500 (transcription_failed e) (with_cors res)))
  /\ run w (TranscribeRestV1.handler req res)
     = ([], Ok (error_response 500 (transcription_failed e) (with_cors res)))
  /\ run w (TranscribeSdk.handler req res)
     = ([], Ok (error_response 500 (transcription_failed e) res)).
Proof.
  intros Hpost Hc%configured_split Ht Hns He.
  unfold Transcribe.handler, TranscribeRestV1.handler, TranscribeSdk.handler,
    Transcribe.handler_try, TranscribeRestV1.handler_try, TranscribeSdk.handler_try,
    Transcribe.handler_catch.
  post_method Hpost. fold (with_cors res). unfold audio_of in *.
  unfold_eff. rewrite Hc. cbn. rewrite Ht. cbn.
  destruct (prop "audio" (or_else (body req) (JObj []))) as [[] |] eqn:Ha;
    try (exfalso; exact (Hns _ eq_refl)); rewrite He; done.
Qed.

Lemma undecodable_audio_rejected_witness :
  run (Sample.world Sample.azure_env (Sample.always (Thrown (Error "unreachable"))) Sample.no_sdk)
      (Transcribe.handler (Sample.post (Some (JObj [("audio", JNum 5 0)]))) res0)
  = ([], Ok (error_response 500
               "Transcription failed: The first argument must be of type string or an instance of Buffer, ArrayBuffer, or Array or an Array-like Object."
               (with_cors res0))).
Proof.
  apply (undecodable_audio_rejected
           (Sample.world Sample.azure_env (Sample.always (Thrown (Error "unreachable")))
              Sample.no_sdk)
           (Sample.post (Some (JObj [("audio", JNum 5 0)]))) res0
           (Error "The first argument must be of type string or an instance of Buffer, ArrayBuffer, or Array or an Array-like Object."));
    try reflexivity.
  intros s. vm_compute. discriminate.
Defined.

(** X6: a POST to a speech relay without a body (undefined or null) is
    answered 500 "Voice failed" and the provider is not contacted: reading
    [text] off the missing body throws inside the [try]. *)
Theorem speak_without_body (w : World) (req : Request) (res : Response) :
  method req = "POST" ->
  body req = None \/ body req = Some JNull ->
  run w (Speak.handler req res) = ([], Ok (error_response 500 "Voice failed" res))
  /\ run w (Server.speak req res) = ([], Ok (error_response 500 "Voice failed" res)).
Proof.
  intros Hpost Hb.
  unfold Speak.handler, Speak.handler_try, Speak.handler_catch,
    Server.speak, Server.speak_try, Server.speak_catch.
  post_method Hpost. unfold_eff. destruct Hb as [-> | ->]; done.
Qed.

Lemma speak_without_body_witness :
  run (Sample.world ∅ (Sample.always (Thrown (Error "unreachable"))) Sample.no_sdk)
      (Speak.handler (Sample.post None) res0)
  = ([], Ok (error_response 500 "Voice failed" res0)).
Proof.
  apply (speak_without_body
           (Sample.world ∅ (Sample.always (Thrown (Error "unreachable"))) Sample.no_sdk)
           (Sample.post None) res0); [reflexivity | left; reflexivity].
Defined.

Lemma transcription_status_meaning_witness :
  let w := Sample.world Sample.azure_env
             (Sample.always (Ok (Sample.text_response false 401 "Access denied")))
             Sample.no_sdk in
  let req := Sample.post (Some (JObj [("audio", JStr "RGlhIGR1aXQ=")])) in
  status_tells w req
    [CFetch (azure_request w
               (Transcribe.form_of (String.list_byte_of_string "Dia duit"))
               (BodyFormBuffer (Transcribe.form_of (String.list_byte_of_string "Dia duit"))))]
    (error_response 502 "Azure transcription failed: Access denied" (with_cors res0)).
Proof.
  intros w req.
  refine (proj1 (transcription_status_meaning w req res0 _
                   (error_response 502 "Azure transcription failed: Access denied"
                      (with_cors res0))
                   _
                   [CFetch (azure_request w
                              (TranscribeRestV1.form_of (String.list_byte_of_string "Dia duit"))
                              (BodyForm (TranscribeRestV1.form_of
                                           (String.list_byte_of_string "Dia duit"))))]
                   _ _));
    vm_compute; reflexivity.
Defined.

(** * More properties of the browser client *)

Section session.
Variable SYSTEM_PROMPT : string.
Variable JSON_parse : string -> result json.

Abbreviation reachable' := (App.reachable SYSTEM_PROMPT JSON_parse).

(** What [callClaude] leaves alone when it starts a call. *)
Lemma callClaude_begin_frame (userMsg : option string) (st : App.State) :
  let st' := App.callClaude_begin SYSTEM_PROMPT userMsg st in
  App.authenticated st' = App.authenticated st
  /\ App.password st' = App.password st
  /\ App.started st' = App.started st
  /\ App.messages st' = App.messages st
  /\ App.input st' = App.input st
  /\ App.utterances st' = App.utterances st
  /\ App.error st' = None
  /\ App.history st'
     = App.history st ++ (if truthy_str userMsg
                          then [App.Turn "user" (JStr (or_else_str userMsg ""))]
                          else [])
  /\ App.pending st'
     = App.pending st ++ [App.chat_body SYSTEM_PROMPT (turns_sent (App.history st'))].
Proof.
  destruct st as [m i l s b a p e k h q u]. unfold App.callClaude_begin. cbn.
  destruct userMsg as [x |]; cbn.
  - destruct (String.eqb x "") eqn:Hx; cbn.
    + rewrite app_nil_r. repeat split. by destruct h.
    + repeat split. destruct h; cbn; done.
  - rewrite app_nil_r. repeat split. by destruct h.
Qed.

(** What [callClaude] leaves alone when its call settles. *)
Lemma callClaude_resume_frame (data : result json) (st : App.State) :
  let st' := App.callClaude_resume JSON_parse data st in
  App.authenticated st' = App.authenticated st
  /\ App.password st' = App.password st
  /\ App.started st' = App.started st
  /\ App.input st' = App.input st
  /\ (exists l, App.history st' = App.history st ++ l /\ (length l <= 1)%nat).
Proof.
  destruct st as [m i l s b a p e k h q u].
  unfold App.callClaude_resume, App.callClaude_settle, App.try_catch_finally,
    App.callClaude_try, App.cbind, App.of_result, App.cmember, App.update,
    App.cret, App.cthrow. cbn.
  repeat (case_match; simplify_eq/=);
    do 4 (split; [done |]);
    first [ exists []; split; [by rewrite app_nil_r | cbn; lia]
          | eexists [_]; split; [reflexivity | cbn; lia] ].
Qed.

Lemma send_frame (text : option string) (st : App.State) :
  let st' := App.send SYSTEM_PROMPT text st in
  App.authenticated st' = App.authenticated st
  /\ App.password st' = App.password st
  /\ App.started st' = App.started st.
Proof.
  unfold App.send. cbn. destruct (negb _ || App.loading st); [done |].
  match goal with
  | |- context [App.callClaude_begin _ ?u ?s] =>
      destruct (callClaude_begin_frame u s) as (H1 & H2 & H3 & _)
  end.
  cbn in *. rewrite H1, H2, H3. by destruct st.
Qed.

Ltac gated_finish Hfresh :=
  repeat split; intros; cbn in *; try congruence; auto;
  try (edestruct Hfresh as (? & ? & ? & ? & ?); [eassumption | done]).

Lemma gated_handle (ev : App.event) (st st' : App.State) :
  gated st -> App.handle SYSTEM_PROMPT JSON_parse ev st = Some st' -> gated st'.
Proof.
  intros (Hpw & Hauth & Hfresh). unfold App.handle, App.render.
  destruct ev as [s | | | s | text | data | b].
  - destruct (App.authenticated st) eqn:Ha; cbn; [by destruct (App.started st) |].
    intros [= <-]. destruct st; cbn in *; subst.
    gated_finish Hfresh.
  - destruct (App.authenticated st) eqn:Ha; cbn; [by destruct (App.started st) |].
    destruct (String.eqb _ _) eqn:Hp; intros [= <-];
      [| unfold gated; rewrite Ha; gated_finish Hfresh].
    apply String.eqb_eq in Hp. destruct st; cbn in *; subst.
    gated_finish Hfresh.
  - destruct (App.authenticated st) eqn:Ha; cbn; [| done].
    destruct (App.started st) eqn:Hs; cbn; [done |].
    intros [= <-].
    destruct (callClaude_begin_frame None (App.setStarted true st))
      as (H1 & H2 & H3 & _). cbn in *.
    unfold gated. rewrite H1, H2, H3.
    destruct st; cbn in *; subst.
    gated_finish Hfresh.
  - destruct (App.authenticated st) eqn:Ha; cbn; [| done].
    destruct (App.started st) eqn:Hs; cbn; [| done].
    intros [= <-]. destruct st; cbn in *; subst.
    gated_finish Hfresh.
  - destruct (App.authenticated st) eqn:Ha; cbn; [| done].
    destruct (App.started st) eqn:Hs; cbn; [| done].
    intros [= <-]. destruct (send_frame text st) as (H1 & H2 & H3). cbn in *.
    unfold gated. rewrite H1, H2, H3, Ha, Hs.
    gated_finish Hfresh.
  - assert (Hres : match App.pending st with
                   | [] => None
                   | _ :: _ => Some (App.callClaude_resume JSON_parse data st)
                   end = Some st' -> gated st').
    { destruct (App.pending st) as [| b l] eqn:Hp; [done |]. intros [= <-].
      destruct (App.started st) eqn:Hs.
      - destruct (callClaude_resume_frame data st) as (H1 & H2 & H3 & _). cbn in *.
        unfold gated. rewrite H1, H2, H3, Hs.
        gated_finish Hfresh.
      - destruct (Hfresh eq_refl) as (_ & _ & Hp' & _). congruence. }
    destruct (App.authenticated st); cbn; [destruct (App.started st); cbn |]; done.
  - destruct (App.authenticated st) eqn:Ha; cbn; [| done].
    destruct (App.started st) eqn:Hs; cbn; [| done].
    intros [= <-]. destruct st; cbn in *; subst.
    gated_finish Hfresh.
Qed.

Lemma reachable_gated (st : App.State) : reachable' st -> gated st.
Proof.
  induction 1 as [| st ev st' _ IH Hstep].
  - repeat split; done.
  - by eapply gated_handle.
Qed.

(** X7: the conversation is behind the password.  In every state of a
    session in which anything of a conversation exists (the lesson was
    started, a message is shown, a turn is recorded, a chat call is pending
    or loading is set), the application was unlocked and the password field
    holds "luke123". *)
Theorem password_gate (st : App.State) :
  reachable' st ->
  App.started st = true \/ App.messages st <> [] \/ App.history st <> []
  \/ App.pending st <> [] \/ App.loading st = true ->
  App.authenticated st = true /\ App.password st = "luke123".
Proof.
  intros (Hpw & Hauth & Hfresh)%reachable_gated Hsome.
  assert (Hs : App.started st = true).
  { destruct (App.started st) eqn:Hs; [done |].
    destruct (Hfresh eq_refl) as (Hh & Hm & Hp & Hl & _).
    destruct Hsome as [? | [? | [? | [? | ?]]]]; congruence. }
  auto.
Qed.

(** X8: the send button tells the truth.  It is disabled exactly when
    [send()] would do nothing: with a blank input or while a chat call is
    pending, [send()] leaves the state as it is, and otherwise it changes
    it. *)
Theorem send_button_tells (st : App.State) :
  ChatView.send_disabled st = true <-> App.send SYSTEM_PROMPT None st = st.
Proof.
  unfold ChatView.send_disabled, App.send. cbn [or_else_str].
  destruct (negb (truthy_str (Some (App.trim (App.input st)))) || App.loading st) eqn:Hd.
  - split; intros; reflexivity.
  - split; [discriminate |]. intros Heq. exfalso.
    apply orb_false_iff in Hd as [_ Hl].
    match type of Heq with
    | App.callClaude_begin _ ?u ?s = _ =>
        destruct (callClaude_begin_spec SYSTEM_PROMPT u s) as (H1 & _)
    end.
    rewrite Heq in H1. congruence.
Qed.

End session.

Section conversation_payload.
Variable SYSTEM_PROMPT : string.
Variable JSON_parse : string -> result json.

Lemma turns_sent_nonempty (h : list App.turn) : turns_sent h <> [].
Proof. by destruct h. Qed.

Lemma carries_handle (ev : App.event) (st st' : App.State) :
  one_turn st -> gated st -> carries SYSTEM_PROMPT st ->
  App.handle SYSTEM_PROMPT JSON_parse ev st = Some st' ->
  carries SYSTEM_PROMPT st'.
Proof.
  intros Hone (_ & _ & Hfresh) Hc. unfold App.handle, App.render.
  destruct ev as [s | | | s | text | data | b].
  - destruct (App.authenticated st); cbn; [by destruct (App.started st) |].
    intros [= <-]. by destruct st.
  - destruct (App.authenticated st); cbn; [by destruct (App.started st) |].
    destruct (String.eqb _ _); intros [= <-]; [by destruct st | done].
  - destruct (App.authenticated st); cbn; [| done].
    destruct (App.started st) eqn:Hs; cbn; [done |].
    intros [= <-]. destruct (Hfresh eq_refl) as (_ & _ & Hp & _).
    destruct (callClaude_begin_frame SYSTEM_PROMPT None (App.setStarted true st))
      as (_ & _ & _ & _ & _ & _ & _ & _ & H). cbn in H.
    intros b. rewrite H.
    replace (App.pending (App.setStarted true st)) with (@nil json)
      by (destruct st; cbn in *; congruence).
    intros [<- | []]. done.
  - destruct (App.authenticated st); cbn; [| done].
    destruct (App.started st); cbn; [| done].
    intros [= <-]. by destruct st.
  - destruct (App.authenticated st); cbn; [| done].
    destruct (App.started st); cbn; [| done].
    intros [= <-]. unfold App.send.
    destruct (negb _ || App.loading st) eqn:Hd; [done |].
    apply orb_false_iff in Hd as [_ Hl].
    destruct Hone as [[_ Hp] | [Hl' _]]; [| congruence].
    match goal with
    | |- context [App.callClaude_begin _ ?u ?s] =>
        destruct (callClaude_begin_frame SYSTEM_PROMPT u s)
          as (_ & _ & _ & _ & _ & _ & _ & _ & H); cbn in H;
        replace (App.pending s) with (@nil json) in H
          by (destruct st; cbn in *; congruence)
    end.
    intros b. rewrite H. intros [<- | []]. done.
  - assert (Hres : match App.pending st with
                   | [] => None
                   | _ :: _ => Some (App.callClaude_resume JSON_parse data st)
                   end = Some st' -> carries SYSTEM_PROMPT st').
    { destruct (App.pending st) as [| b l] eqn:Hp; [done |]. intros [= <-].
      destruct (callClaude_resume_spec JSON_parse data st) as (_ & _ & H3).
      intros b'. rewrite H3, Hp. cbn.
      destruct Hone as [[_ Hp'] | (_ & _ & b0 & Hp')]; [congruence |].
      rewrite Hp in Hp'. injection Hp' as _ ->. done. }
    destruct (App.authenticated st); cbn; [destruct (App.started st); cbn |]; done.
  - destruct (App.authenticated st); cbn; [| done].
    destruct (App.started st); cbn; [| done].
    intros [= <-]. by destruct st.
Qed.

Lemma reachable_invariants (st : App.State) :
  App.reachable SYSTEM_PROMPT JSON_parse st ->
  one_turn st /\ gated st /\ carries SYSTEM_PROMPT st.
Proof.
  induction 1 as [| st ev st' _ (H1 & H2 & H3) Hstep].
  - split; [by left |]. split; [by repeat split |]. intros b [].
  - split; [| split].
    + by eapply one_turn_handle.
    + by eapply gated_handle.
    + by eapply carries_handle.
Qed.

(** X9: a chat request always carries the whole recorded conversation.  In
    every state of a session, the pending request has as its messages the
    recorded turns, all of them and in order, or, when no turn is recorded,
    the one opening request "Please start the lesson!"; its messages are
    never empty, and it names the model and the prompt. *)
Theorem request_carries_conversation (st : App.State) (b : json) :
  App.reachable SYSTEM_PROMPT JSON_parse st ->
  In b (App.pending st) ->
  exists msgs,
    msgs <> []
    /\ (msgs = App.history st
        \/ App.history st = []
           /\ msgs = [App.Turn "user" (JStr "Please start the lesson!")])
    /\ b = JObj [("model", JStr "claude-sonnet-4-20250514");
                 ("max_tokens", JNum 1000 0);
                 ("system", JStr SYSTEM_PROMPT);
                 ("messages", JArr (map App.json_of_turn msgs))].
Proof.
  intros (_ & _ & Hc)%reachable_invariants Hin.
  exists (turns_sent (App.history st)). split; [apply turns_sent_nonempty |].
  split; [| by apply Hc].
  destruct (App.history st); [right | left]; done.
Qed.

(** X10: no step of a session drops or rewrites a recorded turn: after
    every event the earlier history is a prefix of the new one, and at most
    one turn was added. *)
Theorem history_only_grows (ev : App.event) (st st' : App.State) :
  App.handle SYSTEM_PROMPT JSON_parse ev st = Some st' ->
  exists l, App.history st' = App.history st ++ l /\ (length l <= 1)%nat.
Proof.
  unfold App.handle, App.render.
  assert (Hsame : forall s : App.State,
             App.history s = App.history st ->
             exists l, App.history s = App.history st ++ l /\ (length l <= 1)%nat).
  { intros s ->. exists []. rewrite app_nil_r. split; [done | cbn; lia]. }
  assert (Hbegin : forall u s,
             App.history s = App.history st ->
             exists l, App.history (App.callClaude_begin SYSTEM_PROMPT u s)
                       = App.history st ++ l /\ (length l <= 1)%nat).
  { intros u s Hs.
    destruct (callClaude_begin_frame SYSTEM_PROMPT u s)
      as (_ & _ & _ & _ & _ & _ & _ & H & _). cbn in H. rewrite H, Hs.
    eexists. split; [reflexivity |]. destruct (truthy_str u); cbn; lia. }
  destruct ev as [s | | | s | text | data | b].
  - destruct (App.authenticated st); cbn; [by destruct (App.started st) |].
    intros [= <-]. apply Hsame. by destruct st.
  - destruct (App.authenticated st); cbn; [by destruct (App.started st) |].
    destruct (String.eqb _ _); intros [= <-]; apply Hsame; by destruct st.
  - destruct (App.authenticated st); cbn; [| done].
    destruct (App.started st); cbn; [done |].
    intros [= <-]. apply Hbegin. by destruct st.
  - destruct (App.authenticated st); cbn; [| done].
    destruct (App.started st); cbn; [| done].
    intros [= <-]. apply Hsame. by destruct st.
  - destruct (App.authenticated st); cbn; [| done].
    destruct (App.started st); cbn; [| done].
    intros [= <-]. unfold App.send.
    destruct (negb _ || App.loading st); [by apply Hsame |].
    apply Hbegin. by destruct st.
  - assert (Hres : match App.pending st with
                   | [] => None
                   | _ :: _ => Some (App.callClaude_resume JSON_parse data st)
                   end = Some st' ->
                   exists l, App.history st' = App.history st ++ l /\ (length l <= 1)%nat).
    { destruct (App.pending st); [done |]. intros [= <-].
      by destruct (callClaude_resume_frame JSON_parse data st) as (_ & _ & _ & _ & H). }
    destruct (App.authenticated st); cbn; [destruct (App.started st); cbn |]; done.
  - destruct (App.authenticated st); cbn; [| done].
    destruct (App.started st); cbn; [| done].
    intros [= <-]. apply Hsame. by destruct st.
Qed.

End conversation_payload.

Section turns.
Variable SYSTEM_PROMPT : string.
Variable JSON_parse : string -> result json.

Lemma deserialize_returns (raw : json) (e : exn) :
  App.deserialize JSON_parse raw <> Thrown e.
Proof.
  unfold App.deserialize. by destruct (App.deserialize_try JSON_parse raw).
Qed.

(** The reply of a call that settled is recorded before it is looked at:
    whatever it parses to, the raw text becomes the assistant's turn. *)
Lemma resume_records_reply (data : json) (st : App.State) :
  data <> JNull ->
  let st' := App.callClaude_resume JSON_parse (Ok data) st in
  App.history st' = App.history st ++ [App.Turn "assistant" (raw_of data)]
  /\ App.loading st' = false
  /\ App.pending st' = tl (App.pending st).
Proof.
  intros Hd. destruct st as [m i l s b a p e k h q u].
  unfold App.callClaude_resume, App.callClaude_settle, App.try_catch_finally,
    App.callClaude_try, App.cbind, App.of_result, App.cmember, App.update,
    App.cret, App.cthrow, raw_of. cbn.
  destruct data; try congruence; cbn;
    repeat (case_match; simplify_eq/=);
    try match goal with
        | H : App.deserialize _ _ = Thrown _ |- _ => by apply deserialize_returns in H
        end;
    done.
Qed.

(** X11: the opening request of a lesson is not recorded.  The start
    button asks for the lesson with the one turn "Please start the
    lesson!", which is not kept in the history; so once the reply arrived,
    the next request begins with the assistant's turn, followed by what the
    user sent. *)
Theorem lesson_opening_not_recorded (st : App.State) (data : json) (msg : string) :
  App.reachable SYSTEM_PROMPT JSON_parse st ->
  App.render st = App.Welcome ->
  data <> JNull ->
  msg <> "" ->
  let st1 := App.callClaude_begin SYSTEM_PROMPT None (App.setStarted true st) in
  let st2 := App.callClaude_resume JSON_parse (Ok data) st1 in
  let st3 := App.send SYSTEM_PROMPT (Some msg) st2 in
  App.handle SYSTEM_PROMPT JSON_parse App.Start st = Some st1
  /\ App.pending st1
     = [App.chat_body SYSTEM_PROMPT [App.Turn "user" (JStr "Please start the lesson!")]]
  /\ App.history st1 = []
  /\ App.history st2 = [App.Turn "assistant" (raw_of data)]
  /\ App.pending st3
     = [App.chat_body SYSTEM_PROMPT
          [App.Turn "assistant" (raw_of data); App.Turn "user" (JStr msg)]].
Proof.
  intros (_ & (_ & _ & Hfresh) & _)%(reachable_invariants SYSTEM_PROMPT JSON_parse)
    Hw Hd Hm st1 st2 st3.
  assert (Hs : App.started st = false).
  { unfold App.render in Hw. destruct (App.authenticated st); cbn in Hw; [| done].
    by destruct (App.started st). }
  destruct (Hfresh Hs) as (Hh & _ & Hp & _).
  destruct (callClaude_begin_frame SYSTEM_PROMPT None (App.setStarted true st))
    as (_ & _ & _ & _ & _ & _ & _ & H1h & H1p). cbn in H1h, H1p. fold st1 in H1h, H1p.
  assert (Hh1 : App.history st1 = []).
  { rewrite H1h, app_nil_r. destruct st; cbn in *; done. }
  assert (Hp1 : App.pending st1
                = [App.chat_body SYSTEM_PROMPT
                     [App.Turn "user" (JStr "Please start the lesson!")]]).
  { rewrite H1p, Hh1. destruct st; cbn in *. by rewrite Hp. }
  destruct (resume_records_reply data st1 Hd) as (H2h & H2l & H2p).
  fold st2 in H2h, H2l, H2p. rewrite Hh1 in H2h. rewrite Hp1 in H2p. cbn in H2h, H2p.
  repeat split; try done.
  - unfold App.handle. by rewrite Hw.
  - subst st3. unfold App.send. cbn [or_else_str truthy_str].
    apply String.eqb_neq in Hm. rewrite Hm, H2l. cbn [negb orb].
    match goal with
    | |- context [App.callClaude_begin _ ?u ?s] =>
        destruct (callClaude_begin_frame SYSTEM_PROMPT u s)
          as (_ & _ & _ & _ & _ & _ & _ & H3h & H3p); cbv zeta in H3h, H3p;
        replace (App.pending s) with (@nil json) in H3p
          by (destruct st2; cbn in *; congruence);
        replace (App.history s) with [App.Turn "assistant" (raw_of data)] in H3h
          by (destruct st2; cbn in *; congruence)
    end.
    cbn [truthy_str or_else_str] in H3h. rewrite Hm in H3h. cbn [negb] in H3h.
    rewrite ?Hm. cbn [negb orb]. rewrite H3p, H3h. reflexivity.
Qed.

(** X12: a chat call that fails shows the error and keeps what the user
    sent.  After [send] went through and its call failed, the error text is
    shown, loading is over, the user's message is still displayed and still
    recorded, and the next request carries it again before the new
    message; starting that request clears the error. *)
Theorem failed_call_keeps_turn (st : App.State) (e : exn) (msg msg' : string) :
  App.reachable SYSTEM_PROMPT JSON_parse st ->
  App.loading st = false ->
  msg <> "" -> msg' <> "" ->
  let st1 := App.send SYSTEM_PROMPT (Some msg) st in
  let st2 := App.callClaude_resume JSON_parse (Thrown e) st1 in
  let st3 := App.send SYSTEM_PROMPT (Some msg') st2 in
  App.error st2 = Some "Couldn't connect to Finbar. Please try again."
  /\ App.loading st2 = false
  /\ App.messages st2 = App.messages st ++ [App.UserMsg msg]
  /\ App.history st2 = App.history st ++ [App.Turn "user" (JStr msg)]
  /\ App.error st3 = None
  /\ App.pending st3
     = [App.chat_body SYSTEM_PROMPT
          (App.history st ++ [App.Turn "user" (JStr msg); App.Turn "user" (JStr msg')])].
Proof.
  intros (Hone & _ & _)%(reachable_invariants SYSTEM_PROMPT JSON_parse)
    Hl Hm Hm' st1 st2 st3.
  destruct Hone as [[_ Hp] | [Hl' _]]; [| congruence].
  apply String.eqb_neq in Hm, Hm'.
  subst st3 st2 st1. destruct st as [m i l s b a p err k h q u]. cbn in *. subst.
  unfold App.send. cbn. rewrite Hm. cbn.
  unfold App.callClaude_begin. cbn. rewrite Hm. cbn.
  unfold App.callClaude_resume, App.callClaude_settle, App.try_catch_finally. cbn.
  rewrite Hm'. cbn. rewrite Hm'. cbn.
  rewrite <- !app_assoc. cbn.
  repeat split; try done.
  destruct (h ++ [App.Turn "user" (JStr msg); App.Turn "user" (JStr msg')]) eqn:Hh;
    [by destruct h | done].
Qed.

(** X13: a reply that does not parse is shown as it is.  When the text of
    the reply is a string and [JSON.parse] refuses it, the client displays
    a coach bubble with exactly that text and no words, clears the
    suggestions, records the text as the assistant's turn, hands it to the
    speech timer, ends loading and leaves the error alone; and the bubble
    can be rendered. *)
Theorem unparsed_reply_shown (st : App.State) (data : json) (raw : string) (e : exn) :
  data <> JNull ->
  raw_of data = JStr raw ->
  JSON_parse (candidate raw) = Thrown e ->
  let st' := App.callClaude_resume JSON_parse (Ok data) st in
  App.messages st' = App.messages st ++ [App.CoachMsg (Some (JStr raw)) (JArr [])]
  /\ App.suggestions st' = JArr []
  /\ App.history st' = App.history st ++ [App.Turn "assistant" (JStr raw)]
  /\ App.utterances st' = App.utterances st ++ [Some (JStr raw)]
  /\ App.loading st' = false
  /\ App.error st' = App.error st
  /\ exists spans, Bubble.render (Some (JStr raw)) = Ok spans.
Proof.
  intros Hd Hraw Hparse. destruct st as [m i l s b a p err k h q u].
  unfold App.callClaude_resume, App.callClaude_settle, App.try_catch_finally,
    App.callClaude_try, App.cbind, App.of_result, App.cmember, App.update,
    App.cret, App.cthrow.
  unfold raw_of in Hraw.
  assert (Hdes : App.deserialize JSON_parse (JStr raw) = Ok (App.fallback (JStr raw))).
  { unfold App.deserialize, App.deserialize_try, candidate in *. cbn.
    destruct (App.brace_region raw); by rewrite Hparse. }
  destruct data; try congruence; cbn in *; rewrite ?Hraw, ?Hdes; cbn;
    try (repeat split; try done; by eexists).
Qed.

(** X14: a reply without a text message cannot be displayed.  When the
    reply parses to a value whose [message] is no string (the empty object,
    say), the client still appends a coach bubble, with that [message] as
    its text, and rendering the bubble throws: nothing checks the turn
    between the parse and the display. *)
Theorem turn_without_message_breaks_display
    (st : App.State) (data parsed : json) (raw : string) :
  data <> JNull ->
  raw_of data = JStr raw ->
  JSON_parse (candidate raw) = Ok parsed ->
  parsed <> JNull ->
  (forall s, prop "message" parsed <> Some (JStr s)) ->
  let st' := App.callClaude_resume JSON_parse (Ok data) st in
  App.messages st'
  = App.messages st
    ++ [App.CoachMsg (prop "message" parsed) (or_else (prop "words" parsed) (JArr []))]
  /\ App.error st' = App.error st
  /\ exists e, Bubble.render (prop "message" parsed) = Thrown e.
Proof.
  intros Hd Hraw Hparse Hp Hmsg. destruct st as [m i l s b a p err k h q u].
  unfold App.callClaude_resume, App.callClaude_settle, App.try_catch_finally,
    App.callClaude_try, App.cbind, App.of_result, App.cmember, App.update,
    App.cret, App.cthrow.
  unfold raw_of in Hraw.
  assert (Hdes : App.deserialize JSON_parse (JStr raw) = Ok parsed).
  { unfold App.deserialize, App.deserialize_try, candidate in *. cbn.
    destruct (App.brace_region raw); by rewrite Hparse. }
  assert (Hrender : exists e, Bubble.render (prop "message" parsed) = Thrown e).
  { unfold Bubble.render.
    destruct (prop "message" parsed) as [[] |] eqn:Hm; try (by eexists).
    exfalso. by eapply Hmsg. }
  destruct data; try congruence; cbn in *; rewrite ?Hraw, ?Hdes; cbn;
    destruct parsed; try congruence; cbn; done.
Qed.

End turns.

(** * The display and the voice *)

Lemma append_cons' (c : ascii) (a b : string) :
  String c a +:+ b = String c (a +:+ b).
Proof. reflexivity. Qed.

Lemma append_nil_l (b : string) : "" +:+ b = b.
Proof. reflexivity. Qed.

Lemma append_nil_r (a : string) : a +:+ "" = a.
Proof. induction a as [| c a IH]; [done |]. by rewrite append_cons', IH. Qed.

Lemma append_assoc' (a b c : string) : (a +:+ b) +:+ c = a +:+ b +:+ c.
Proof. induction a as [| x a IH]; [done |]. by rewrite !append_cons', IH. Qed.

Lemma length_append (a b : string) :
  String.length (a +:+ b) = (String.length a + String.length b)%nat.
Proof. induction a as [| x a IH]; [done |]. rewrite append_cons'. cbn. by rewrite IH. Qed.

Lemma concat_cons (a : string) (l : list string) :
  String.concat "" (a :: l) = a +:+ String.concat "" l.
Proof. destruct l; cbn; [by rewrite append_nil_r | done]. Qed.

(** ** Highlights *)

Lemma span_plain_spec (s : string) :
  s = (Bubble.span_plain s).1 +:+ (Bubble.span_plain s).2
  /\ has_char "*" (Bubble.span_plain s).1 = false.
Proof.
  induction s as [| c s [IH1 IH2]]; cbn; [done |].
  destruct (Ascii.eqb c "*") eqn:Hc; cbn; [done |].
  destruct (Bubble.span_plain s) as [p r]. cbn in *.
  rewrite Hc, IH2. split; [by rewrite IH1 at 1 | done].
Qed.

Lemma match_at_spec (s inner rest : string) :
  Bubble.match_at s = Some (inner, rest) ->
  s = "**" +:+ inner +:+ "**" +:+ rest.
Proof.
  unfold Bubble.match_at.
  destruct s as [| a [| b t]]; try done.
  destruct (Ascii.eqb a "*") eqn:Ha; cbn; [| done].
  destruct (Ascii.eqb b "*") eqn:Hb; cbn; [| done].
  apply Ascii.eqb_eq in Ha, Hb. subst.
  destruct (span_plain_spec t) as [Ht _].
  destruct (Bubble.span_plain t) as [[| c i] [| d [| e r]]]; try done.
  destruct (Ascii.eqb d "*") eqn:Hd; cbn; [| done].
  destruct (Ascii.eqb e "*") eqn:He; cbn; [| done].
  apply Ascii.eqb_eq in Hd, He. subst. intros [= <- <-]. reflexivity.
Qed.

Lemma split_from_concat (fuel : nat) (piece s : string) :
  String.concat "" (Bubble.split_from fuel piece s) = piece +:+ s.
Proof.
  revert piece s. induction fuel as [| n IH]; intros piece s; cbn.
  - done.
  - destruct (Bubble.match_at s) as [[inner rest] |] eqn:Hm.
    + apply match_at_spec in Hm as ->.
      rewrite !concat_cons, IH. cbn. rewrite !append_assoc'. reflexivity.
    + destruct s as [| c s]; [cbn; by rewrite append_nil_r |].
      rewrite IH, append_assoc'. reflexivity.
Qed.

(** X15: the highlighting loses nothing.  The pieces a message is split
    into for display, joined again, are the message: no character is
    dropped or added, whatever asterisks the text contains. *)
Theorem split_loses_nothing (text : string) :
  String.concat "" (Bubble.split text) = text.
Proof. unfold Bubble.split. apply split_from_concat. Qed.

(** ** The text that is spoken *)

Lemma clean_cons2 (a b : ascii) (t : string) :
  Voice.clean (String a (String b t))
  = if Ascii.eqb a "*" && Ascii.eqb b "*" then Voice.clean t
    else String a (Voice.clean (String b t)).
Proof. reflexivity. Qed.

Lemma clean_head (b : ascii) (t : string) :
  Ascii.eqb b "*" = false -> exists x, Voice.clean (String b t) = String b x.
Proof.
  intros Hb. cbn. destruct t as [| c t]; [by eexists |].
  rewrite Hb. cbn. by eexists.
Qed.

Lemma clean_no_double_star_bounded (n : nat) (s : string) :
  (String.length s <= n)%nat -> has_double_star (Voice.clean s) = false.
Proof.
  revert s. induction n as [| n IH]; intros s Hn.
  - destruct s; [done | cbn in Hn; lia].
  - destruct s as [| a [| b t]]; [reflexivity | reflexivity |].
    rewrite clean_cons2.
    destruct (Ascii.eqb a "*" && Ascii.eqb b "*") eqn:Hab.
    + apply IH. cbn in Hn. lia.
    + assert (IHt : has_double_star (Voice.clean (String b t)) = false)
        by (apply IH; cbn in *; lia).
      destruct (Ascii.eqb b "*") eqn:Hb.
      * rewrite andb_true_r in Hab.
        destruct (Voice.clean (String b t)) as [| c x]; [reflexivity |].
        change (has_double_star (String a (String c x)))
          with ((Ascii.eqb a "*" && Ascii.eqb c "*") || has_double_star (String c x)).
        by rewrite Hab, IHt.
      * destruct (clean_head b t Hb) as [x Hx]. rewrite Hx in *.
        change (has_double_star (String a (String b x)))
          with ((Ascii.eqb a "*" && Ascii.eqb b "*") || has_double_star (String b x)).
        by rewrite Hb, andb_false_r, IHt.
Qed.

Lemma clean_fixed (s : string) :
  has_double_star s = false -> Voice.clean s = s.
Proof.
  induction s as [| a t IH]; [done |].
  destruct t as [| b t']; [done |].
  change (has_double_star (String a (String b t')))
    with ((Ascii.eqb a "*" && Ascii.eqb b "*") || has_double_star (String b t')).
  intros [Hab Ht]%orb_false_iff.
  rewrite clean_cons2, Hab. by rewrite IH.
Qed.

(** X16: the text handed to the voice has no highlight marker left.  After
    the cleaning no two asterisks stand side by side, a text without such a
    pair is spoken as it is, and cleaning twice changes nothing more. *)
Theorem clean_removes_markers (s : string) :
  has_double_star (Voice.clean s) = false
  /\ Voice.clean (Voice.clean s) = Voice.clean s
  /\ (has_double_star s = false -> Voice.clean s = s).
Proof.
  assert (H : has_double_star (Voice.clean s) = false)
    by (by apply (clean_no_double_star_bounded (String.length s))).
  split; [done |]. split; [by apply clean_fixed | apply clean_fixed].
Qed.

(** ** Messages written with highlights *)

Lemma has_char_append (c : ascii) (a b : string) :
  has_char c (a +:+ b) = has_char c a || has_char c b.
Proof.
  induction a as [| x a IH]; [done |]. rewrite append_cons'. cbn.
  by rewrite IH, orb_assoc.
Qed.

Lemma clean_cons_plain (a : ascii) (x : string) :
  Ascii.eqb a "*" = false -> Voice.clean (String a x) = String a (Voice.clean x).
Proof.
  intros Ha. destruct x as [| b x]; [reflexivity |].
  by rewrite clean_cons2, Ha.
Qed.

Lemma clean_plain (p t : string) :
  has_char "*" p = false -> Voice.clean (p +:+ t) = p +:+ Voice.clean t.
Proof.
  induction p as [| a p IH]; [done |]. cbn [has_char].
  intros [Ha Hp]%orb_false_iff. rewrite !append_cons'.
  by rewrite clean_cons_plain, IH.
Qed.

Lemma span_plain_plain (b t : string) :
  has_char "*" b = false ->
  Bubble.span_plain (b +:+ String "*" t) = (b, String "*" t).
Proof.
  induction b as [| c b IH]; [done |]. cbn [has_char].
  intros [Hc Hb]%orb_false_iff. rewrite append_cons'. cbn.
  by rewrite Hc, IH.
Qed.

Lemma match_at_marked (b rest : string) :
  b <> "" -> has_char "*" b = false ->
  Bubble.match_at ("**" +:+ b +:+ "**" +:+ rest) = Some (b, rest).
Proof.
  intros Hne Hb.
  change ("**" +:+ b +:+ "**" +:+ rest)
    with (String "*" (String "*" (b +:+ String "*" (String "*" rest)))).
  cbn. rewrite span_plain_plain by done. by destruct b.
Qed.

Lemma match_at_plain (c : ascii) (s : string) :
  Ascii.eqb c "*" = false -> Bubble.match_at (String c s) = None.
Proof. intros Hc. cbn. destruct s; [done |]. by rewrite Hc. Qed.

(** Scanning a plain text moves it into the piece. *)
Lemma split_from_plain (p piece s : string) (fuel : nat) :
  has_char "*" p = false ->
  Bubble.split_from (String.length p + fuel) piece (p +:+ s)
  = Bubble.split_from fuel (piece +:+ p) s.
Proof.
  revert piece. induction p as [| c p IH]; intros piece.
  - intros _. by rewrite append_nil_r.
  - cbn [has_char]. intros [Hc Hp]%orb_false_iff.
    rewrite append_cons'. cbn [String.length Nat.add Bubble.split_from].
    rewrite match_at_plain by done. rewrite IH by done.
    rewrite append_assoc'. reflexivity.
Qed.

Lemma split_from_markup (p0 : string) (l : list (string * string)) (piece : string)
    (fuel : nat) :
  well_marked p0 l = true ->
  (String.length (markup p0 l) < fuel)%nat ->
  Bubble.split_from fuel piece (markup p0 l)
  = match l with
    | [] => [piece +:+ p0]
    | (b, p) :: l' =>
        (piece +:+ p0) :: ("**" +:+ b +:+ "**") :: Bubble.split_from
                                                      (fuel - String.length p0 - 1)
                                                      "" (markup p l')
    end.
Proof.
  destruct l as [| [b p] l']; cbn [markup well_marked].
  - rewrite andb_true_r. intros Hp0%negb_true_iff Hfuel.
    pose proof (split_from_plain p0 piece "" (fuel - String.length p0) Hp0) as H.
    rewrite append_nil_r in H.
    replace (String.length p0 + (fuel - String.length p0))%nat with fuel in H by lia.
    rewrite H. destruct (fuel - String.length p0)%nat eqn:Hf; [lia |]. reflexivity.
  - intros [Hp0%negb_true_iff [[Hb1%negb_true_iff Hb2%negb_true_iff]%andb_true_iff Hrest]%andb_true_iff]%andb_true_iff Hfuel.
    apply String.eqb_neq in Hb1.
    rewrite !length_append in Hfuel. cbn in Hfuel.
    pose proof (split_from_plain p0 piece ("**" +:+ b +:+ "**" +:+ markup p l')
                  (fuel - String.length p0) Hp0) as H.
    replace (String.length p0 + (fuel - String.length p0))%nat with fuel in H by lia.
    rewrite H. destruct (fuel - String.length p0)%nat eqn:Hf; [lia |].
    cbn [Bubble.split_from]. rewrite match_at_marked by done.
    replace (S n - 1)%nat with n by lia. reflexivity.
Qed.

Lemma substring_skip (b x : string) (k : nat) :
  String.substring (String.length b) k (b +:+ x) = String.substring 0 k x.
Proof. induction b as [| c b IH]; [done |]. rewrite append_cons'. cbn. apply IH. Qed.

Lemma substring_prefix (b x : string) :
  String.substring 0 (String.length b) (b +:+ x) = b.
Proof.
  induction b as [| c b IH]; [by destruct x |]. rewrite append_cons'. cbn. by rewrite IH.
Qed.

Lemma render_piece_plain (p : string) :
  has_char "*" p = false -> Bubble.render_piece p = Bubble.Plain p.
Proof.
  unfold Bubble.render_piece, Bubble.startsWith_stars.
  destruct p as [| c p]; [done |]. cbn [has_char].
  intros [Hc _]%orb_false_iff. cbn [String.prefix].
  destruct (ascii_dec "*" c) as [<- | _]; [done | done].
Qed.

Lemma substring_S (n k : nat) (c : ascii) (s : string) :
  String.substring (S n) k (String c s) = String.substring n k s.
Proof. reflexivity. Qed.

Lemma prefix_stars (x : string) :
  String.prefix "**" (String "*" (String "*" x)) = true.
Proof.
  cbn [String.prefix]. destruct (ascii_dec "*" "*") as [_ | H]; [| done].
  by destruct x.
Qed.

Lemma render_piece_bold (b : string) :
  Bubble.render_piece ("**" +:+ b +:+ "**") = Bubble.Bold b.
Proof.
  unfold Bubble.render_piece, Bubble.startsWith_stars, Bubble.endsWith_stars,
    Bubble.slice_2.
  change ("**" +:+ b +:+ "**") with (String "*" (String "*" (b +:+ "**"))).
  assert (Hlen : String.length (String "*" (String "*" (b +:+ "**")))
                 = S (S (String.length b + 2)))
    by (cbn [String.length]; by rewrite length_append).
  rewrite Hlen.
  replace (S (S (String.length b + 2)) - 2)%nat with (S (S (String.length b))) by lia.
  replace (S (S (String.length b)) - 2)%nat with (String.length b) by lia.
  rewrite !substring_S, substring_skip, substring_prefix, prefix_stars. reflexivity.
Qed.

Lemma render_markup (p0 : string) (l : list (string * string)) (fuel : nat) :
  well_marked p0 l = true ->
  (String.length (markup p0 l) < fuel)%nat ->
  map Bubble.render_piece (Bubble.split_from fuel "" (markup p0 l)) = spans_of p0 l.
Proof.
  revert p0 fuel. induction l as [| [b p] l IH]; intros p0 fuel Hw Hfuel.
  - rewrite (split_from_markup _ _ _ _ Hw Hfuel). cbn.
    cbn in Hw. rewrite andb_true_r in Hw. apply negb_true_iff in Hw.
    by rewrite render_piece_plain.
  - rewrite (split_from_markup _ _ _ _ Hw Hfuel).
    cbn [well_marked] in Hw.
    apply andb_true_iff in Hw as [Hp0%negb_true_iff [_ Hrest]%andb_true_iff].
    cbn [map spans_of]. rewrite append_nil_l, render_piece_plain, render_piece_bold by done.
    rewrite IH; [done | done |].
    cbn [markup] in Hfuel. rewrite !length_append in Hfuel. cbn in Hfuel. lia.
Qed.

Lemma clean_markup (p0 : string) (l : list (string * string)) :
  well_marked p0 l = true ->
  Voice.clean (markup p0 l) = String.concat "" (map Bubble.shown (spans_of p0 l)).
Proof.
  revert p0. induction l as [| [b p] l IH]; intros p0 Hw.
  - cbn in *. rewrite andb_true_r in Hw. apply negb_true_iff in Hw.
    rewrite <- (append_nil_r p0) at 1. rewrite clean_plain by done.
    by rewrite append_nil_r.
  - cbn [well_marked] in Hw.
    apply andb_true_iff in Hw
      as [Hp0%negb_true_iff [[_ Hb%negb_true_iff]%andb_true_iff Hrest]%andb_true_iff].
    cbn [markup spans_of map Bubble.shown]. rewrite !concat_cons.
    rewrite clean_plain by done.
    change ("**" +:+ b +:+ "**" +:+ markup p l)
      with (String "*" (String "*" (b +:+ "**" +:+ markup p l))).
    rewrite clean_cons2. cbn [Ascii.eqb Bool.eqb andb].
    rewrite clean_plain by done.
    change ("**" +:+ markup p l) with (String "*" (String "*" (markup p l))).
    rewrite clean_cons2. cbn [Ascii.eqb Bool.eqb andb].
    by rewrite IH.
Qed.

(** X17: what is displayed is what is spoken.  For a message written with
    well-formed highlights (plain texts and non-empty highlighted texts
    free of asterisks), the display is exactly its spans, each highlighted
    text in bold without its markers, and the characters shown, read in
    order, are the text handed to the voice. *)
Theorem highlights_shown_and_spoken (p0 : string) (l : list (string * string)) :
  well_marked p0 l = true ->
  Bubble.render (Some (JStr (markup p0 l))) = Ok (spans_of p0 l)
  /\ String.concat "" (map Bubble.shown (spans_of p0 l)) = Voice.clean (markup p0 l).
Proof.
  intros Hw. split.
  - unfold Bubble.render, Bubble.split. by rewrite render_markup by (done || lia).
  - symmetry. by apply clean_markup.
Qed.

Lemma highlights_shown_and_spoken_witness :
  Bubble.render (Some (JStr "Say **Dia duit** to greet, **Slan** to leave."))
  = Ok [Bubble.Plain "Say "; Bubble.Bold "Dia duit"; Bubble.Plain " to greet, ";
        Bubble.Bold "Slan"; Bubble.Plain " to leave."]
  /\ "Say Dia duit to greet, Slan to leave."
     = Voice.clean "Say **Dia duit** to greet, **Slan** to leave.".
Proof.
  apply (highlights_shown_and_spoken "Say "
           [("Dia duit", " to greet, "); ("Slan", " to leave.")]).
  reflexivity.
Defined.

(** ** Playback *)

Lemma single_playing_handle (ev : Voice.event) (st st' : Voice.State) :
  single_playing st -> Voice.handle ev st = Some st' -> single_playing st'.
Proof.
  intros Hinv. destruct ev as [text | i o | j |]; cbn.
  - unfold Voice.speak_begin. destruct text as [[] |]; try done.
    intros [= <-]. exact Hinv.
  - destruct (Voice.requests st !! i) as [c |]; [| done]. intros [= <-].
    destruct o as [e | |]; try exact Hinv.
    unfold Voice.speak_resume, single_playing. cbn.
    destruct (Voice.audioRef st) as [j |] eqn:Hj; cbn.
    + intros k a Hk Hplay.
      apply lookup_app_Some in Hk as [Hk | [Hlen Hk]].
      * destruct (decide (k = j)) as [-> | Hne].
        -- rewrite list_lookup_alter, decide_True in Hk by done.
           destruct (Voice.audios st !! j) as [x |]; cbn in Hk; [| done].
           injection Hk as <-. done.
        -- rewrite list_lookup_alter_ne in Hk by done.
           specialize (Hinv k a Hk Hplay). congruence.
      * rewrite length_alter in *. apply list_lookup_singleton_Some in Hk as [Hk _].
        f_equal. lia.
    + intros k a Hk Hplay.
      apply lookup_app_Some in Hk as [Hk | [Hlen Hk]].
      * specialize (Hinv k a Hk Hplay). congruence.
      * apply list_lookup_singleton_Some in Hk as [Hk _]. f_equal. lia.
  - destruct (Voice.audios st !! j) as [a |] eqn:Ha; [| done].
    destruct (Voice.playing a); [| done]. intros [= <-].
    unfold single_playing. cbn. intros k b Hk Hplay.
    destruct (decide (k = j)) as [-> | Hne].
    + rewrite list_lookup_alter, decide_True, Ha in Hk by done.
      cbn in Hk. injection Hk as <-. done.
    + rewrite list_lookup_alter_ne in Hk by done. by apply (Hinv k b).
  - intros [= <-]. exact Hinv.
Qed.

(** X18: at most one audio element plays.  In every state the calls of
    [speak], their settling in any order, the ends of playback and the Stop
    button can lead to, an audio element that plays is the one in
    [audioRef.current]; so two replies are never heard on top of each
    other.  The Stop button leaves every audio element as it is: it ends
    the system voice only. *)
Theorem one_audio_at_a_time (st : Voice.State) :
  Voice.reachable st ->
  (forall i a, Voice.audios st !! i = Some a -> Voice.playing a = true ->
     Voice.audioRef st = Some i)
  /\ (forall i j a b,
        Voice.audios st !! i = Some a -> Voice.playing a = true ->
        Voice.audios st !! j = Some b -> Voice.playing b = true -> i = j)
  /\ Voice.audios (Voice.stopSpeaking st) = Voice.audios st.
Proof.
  intros Hr.
  assert (Hinv : single_playing st).
  { induction Hr as [| st ev st' _ IH Hstep]; [by intros i a H |].
    by eapply single_playing_handle. }
  split; [exact Hinv |]. split; [| reflexivity].
  intros i j a b Hi Ha Hj Hb.
  pose proof (Hinv i a Hi Ha) as H1. pose proof (Hinv j b Hj Hb) as H2. congruence.
Qed.

Lemma delete_last {A} (l : list A) (x : A) : delete (length l) (l ++ [x]) = l.
Proof. induction l as [| y l IH]; [done |]. cbn. f_equal. exact IH. Qed.

(** X19: a refused call falls back to the system voice, a failed one is
    silent.  [speak] sends the cleaned text to the relay and sets
    [speaking]; when the relay's answer is not ok the cleaned text is
    queued on the system voice, when the call is rejected nothing is
    queued, and in both cases no audio element is created and [speaking]
    is reset.  A text that is no string makes [speak] throw before anything
    happened. *)
Theorem speech_fallback (st : Voice.State) (t : string) :
  let st1 := Voice.set_requests (Voice.requests st ++ [Voice.clean t])
               (Voice.setSpeaking true st) in
  let i := length (Voice.requests st) in
  Voice.speak_begin (Some (JStr t)) st = Ok st1
  /\ (exists st2, Voice.handle (Voice.Settle i Voice.NotOk) st1 = Some st2
                  /\ Voice.synthesis st2 = Voice.synthesis st ++ [Voice.clean t]
                  /\ Voice.audios st2 = Voice.audios st
                  /\ Voice.requests st2 = Voice.requests st
                  /\ Voice.speaking st2 = false)
  /\ (forall e, exists st3,
        Voice.handle (Voice.Settle i (Voice.Rejected e)) st1 = Some st3
        /\ Voice.synthesis st3 = Voice.synthesis st
        /\ Voice.audios st3 = Voice.audios st
        /\ Voice.requests st3 = Voice.requests st
        /\ Voice.speaking st3 = false)
  /\ (forall text, (forall s, text <> Some (JStr s)) ->
        exists e, Voice.speak_begin text st = Thrown e).
Proof.
  intros st1 i.
  assert (Hlook : Voice.requests st1 !! i = Some (Voice.clean t)).
  { subst st1 i. cbn. by rewrite lookup_app_r, Nat.sub_diag by lia. }
  assert (Hdel : delete i (Voice.requests st1) = Voice.requests st).
  { subst st1 i. cbn. apply delete_last. }
  split; [reflexivity |]. split; [| split].
  - eexists. unfold Voice.handle. rewrite Hlook, Hdel. split; [reflexivity |]. done.
  - intros e. eexists. unfold Voice.handle. rewrite Hlook, Hdel.
    split; [reflexivity |]. done.
  - intros text Hns. unfold Voice.speak_begin.
    destruct text as [[] |]; try (by eexists). exfalso. by eapply Hns.
Qed.

(** ** Voice input *)

Lemma recognizer_kept (ev : Listening.event) (st : Listening.State) :
  Listening.recognitionRef st <> None ->
  Listening.recognitionRef (Listening.handle ev st) <> None.
Proof.
  intros H. destruct ev as [supported | | t | |]; cbn; try done.
  - unfold Listening.mic_click, Listening.stopListening, Listening.startListening.
    destruct (Listening.listening st); cbn.
    + destruct (Listening.recognitionRef st) eqn:E; cbn; by rewrite ?E.
    + by destruct supported.
  - unfold Listening.onend.
    destruct (Listening.recognitionRef st) eqn:E; cbn; by rewrite ?E.
Qed.

Lemma recognizer_kept_run (evs : list Listening.event) (st : Listening.State) :
  Listening.recognitionRef st <> None ->
  Listening.recognitionRef (Listening.run_events evs st) <> None.
Proof.
  revert st. induction evs as [| ev evs IH]; intros st H; [done |].
  cbn. apply IH. by apply recognizer_kept.
Qed.

(** X20: the Stop of the microphone does not end the dictation.  Once a
    recognizer was created [recognitionRef.current] is never cleared,
    whatever happens next; so when the user stops a running dictation and
    the recognizer then ends, its [onend] starts it again, and its
    [onstart] sets [listening] again: the calls made are [stop] and then
    [start] on the same recognizer. *)
Theorem microphone_restarts_after_stop (st : Listening.State) (r : nat) :
  Listening.recognitionRef st = Some r ->
  (forall evs, exists r',
     Listening.recognitionRef (Listening.run_events evs st) = Some r')
  /\ (Listening.listening st = true -> forall supported,
        let st' := Listening.run_events
                     [Listening.Mic supported; Listening.Ended; Listening.Started] st in
        Listening.commands st'
          = Listening.commands st ++ [Listening.RStop r; Listening.RStart r]
        /\ Listening.listening st' = true
        /\ Listening.recognitionRef st' = Some r).
Proof.
  intros Hr. split.
  - intros evs.
    destruct (Listening.recognitionRef (Listening.run_events evs st)) as [r' |] eqn:E;
      [by eexists |].
    exfalso. eapply (recognizer_kept_run evs st); [by rewrite Hr | exact E].
  - intros Hl supported. cbn.
    unfold Listening.mic_click, Listening.stopListening, Listening.onend.
    rewrite Hl, Hr. cbn. rewrite Hr. cbn. by rewrite <- app_assoc.
Qed.

Lemma microphone_restarts_after_stop_witness :
  let st := Listening.run_events [Listening.Mic true; Listening.Started] Listening.init in
  Listening.commands
    (Listening.run_events [Listening.Mic true; Listening.Ended; Listening.Started] st)
  = [Listening.RStart 0; Listening.RStop 0; Listening.RStart 0].
Proof.
  intros st.
  destruct (microphone_restarts_after_stop st 0 eq_refl) as [_ H].
  destruct (H eq_refl true) as [Hc _]. exact Hc.
Defined.

Lemma concat_cons_cons (sep x y : string) (l : list string) :
  String.concat sep (x :: y :: l) = x +:+ sep +:+ String.concat sep (y :: l).
Proof. reflexivity. Qed.

Lemma dictated_step (prev t : string) (ts : list string) :
  dictated (prev +:+ (if truthy_str (Some prev) then " " else "") +:+ t) ts
  = dictated prev (t :: ts).
Proof.
  unfold dictated. destruct prev as [| c prev]; [reflexivity |].
  change (truthy_str (Some (String c prev))) with true.
  cbn [spoken_parts]. rewrite concat_cons_cons.
  rewrite append_cons'. cbn [spoken_parts].
  destruct ts as [| t' ts].
  - reflexivity.
  - rewrite !concat_cons_cons. rewrite <- append_cons'.
    by rewrite <- !append_assoc'.
Qed.

(** X21: dictation appends.  After the recognizer delivered the transcripts
    [ts] one after the other, the input box holds what was typed before
    followed by the transcripts, joined by single spaces; nothing typed is
    overwritten, and an empty box gets no leading space. *)
Theorem dictation_appends (ts : list string) (st : Listening.State) :
  Listening.input (Listening.run_events (map Listening.Result ts) st)
  = dictated (Listening.input st) ts.
Proof.
  revert st. induction ts as [| t ts IH]; intros st.
  - cbn. unfold dictated. cbn. by destruct (Listening.input st).
  - cbn [map Listening.run_events fold_left].
    change (fold_left _ (map Listening.Result ts) ?s)
      with (Listening.run_events (map Listening.Result ts) s).
    rewrite IH. cbn [Listening.handle Listening.onresult Listening.setInput Listening.input].
    apply dictated_step.
Qed.

(** ** Sample sessions *)

Lemma unlocked_reachable : App.reachable Sample.prompt Sample.parse Session.unlocked.
Proof.
  eapply App.reachable_step with (ev := App.Unlock);
    [eapply App.reachable_step with (ev := App.TypePassword "luke123");
      [apply App.reachable_init | reflexivity]
    | reflexivity].
Qed.

Lemma started_reachable : App.reachable Sample.prompt Sample.parse Session.started.
Proof.
  eapply App.reachable_step with (ev := App.Start);
    [apply unlocked_reachable | reflexivity].
Qed.

Lemma replied_reachable (t : string) :
  App.reachable Sample.prompt Sample.parse (Session.replied t).
Proof.
  eapply App.reachable_step with (ev := App.Settled (Ok (Session.reply t)));
    [apply started_reachable | reflexivity].
Qed.

Lemma voice_run_reachable (evs : list Voice.event) (st st' : Voice.State) :
  Voice.reachable st -> Session.voice_run evs st = Some st' -> Voice.reachable st'.
Proof.
  revert st. induction evs as [| ev evs IH]; intros st Hr; cbn.
  - by intros [= <-].
  - destruct (Voice.handle ev st) as [s |] eqn:E; [| done].
    apply IH. by eapply Voice.reachable_step.
Qed.

Lemma password_gate_witness :
  App.authenticated Session.started = true /\ App.password Session.started = "luke123".
Proof.
  apply (password_gate Sample.prompt Sample.parse Session.started started_reachable).
  left. reflexivity.
Defined.

Lemma request_carries_conversation_witness :
  exists msgs,
    msgs <> []
    /\ (msgs = App.history Session.started
        \/ App.history Session.started = []
           /\ msgs = [App.Turn "user" (JStr "Please start the lesson!")])
    /\ App.chat_body Sample.prompt [App.Turn "user" (JStr "Please start the lesson!")]
       = JObj [("model", JStr "claude-sonnet-4-20250514");
               ("max_tokens", JNum 1000 0);
               ("system", JStr Sample.prompt);
               ("messages", JArr (map App.json_of_turn msgs))].
Proof.
  apply (request_carries_conversation Sample.prompt Sample.parse Session.started
           _ started_reachable).
  left. reflexivity.
Defined.

Lemma history_only_grows_witness :
  exists l,
    App.history (App.send Sample.prompt (Some "Dia duit") (Session.replied "Failte!"))
    = App.history (Session.replied "Failte!") ++ l
    /\ (length l <= 1)%nat.
Proof.
  apply (history_only_grows Sample.prompt Sample.parse (App.Send (Some "Dia duit"))).
  reflexivity.
Defined.

Lemma lesson_opening_not_recorded_witness :
  App.pending
    (App.send Sample.prompt (Some "Dia duit")
       (App.callClaude_resume Sample.parse (Ok (Session.reply "Failte!"))
          (App.callClaude_begin Sample.prompt None
             (App.setStarted true Session.unlocked))))
  = [App.chat_body Sample.prompt
       [App.Turn "assistant" (JStr "Failte!"); App.Turn "user" (JStr "Dia duit")]].
Proof.
  destruct (lesson_opening_not_recorded Sample.prompt Sample.parse Session.unlocked
              (Session.reply "Failte!") "Dia duit" unlocked_reachable eq_refl)
    as (_ & _ & _ & _ & H); [done | done |].
  exact H.
Defined.

Lemma failed_call_keeps_turn_witness :
  let st2 := App.callClaude_resume Sample.parse (Thrown (Error "Failed to fetch"))
               (App.send Sample.prompt (Some "Dia duit") (Session.replied "Failte!")) in
  App.error st2 = Some "Couldn't connect to Finbar. Please try again."
  /\ App.loading st2 = false.
Proof.
  intros st2.
  pose proof (failed_call_keeps_turn Sample.prompt Sample.parse (Session.replied "Failte!")
                (Error "Failed to fetch") "Dia duit" "Conas ata tu?"
                (replied_reachable "Failte!") eq_refl) as H.
  destruct H as (He & Hl & _); [done | done |].
  split; [exact He | exact Hl].
Defined.

Lemma unparsed_reply_shown_witness :
  App.messages (Session.replied "Failte!")
  = [App.CoachMsg (Some (JStr "Failte!")) (JArr [])].
Proof.
  destruct (unparsed_reply_shown Sample.parse Session.started (Session.reply "Failte!")
              "Failte!" (Error "Unexpected token")) as (H & _); [done | done | done |].
  exact H.
Defined.

Lemma turn_without_message_breaks_display_witness :
  App.messages (Session.replied "{}") = [App.CoachMsg None (JArr [])]
  /\ exists e, Bubble.render None = Thrown e.
Proof.
  destruct (turn_without_message_breaks_display Sample.parse Session.started
              (Session.reply "{}") (JObj []) "{}") as (H & _ & Hr);
    [done | done | done | done | done |].
  split; [exact H | exact Hr].
Defined.

Lemma one_audio_at_a_time_witness :
  let evs := [Voice.Speak (Some (JStr "Dia duit")); Voice.Settle 0 Voice.Blob;
              Voice.Speak (Some (JStr "Slan")); Voice.Settle 0 Voice.Blob] in
  exists st, Session.voice_run evs Voice.init = Some st
             /\ length (Voice.audios st) = 2%nat
             /\ Voice.audioRef st = Some 1%nat.
Proof.
  intros evs.
  destruct (Session.voice_run evs Voice.init) as [st |] eqn:E; [| discriminate E].
  exists st. split; [reflexivity |].
  assert (Hr : Voice.reachable st)
    by exact (voice_run_reachable evs _ _ Voice.reachable_init E).
  destruct (one_audio_at_a_time st Hr) as (H & _).
  injection E as <-. split; [reflexivity |].
  apply (H 1%nat (Voice.Audio 1 true)); reflexivity.
Defined.
